(** * Verification of the e-commerce [DatabaseManager] (bd.py)

    A shallow embedding of the query and transaction layer of
    [DatabaseManager]: the five tables of the schema, the SQL statements the
    methods send to SQLite (written as relational operators on lists of rows)
    and the Python control flow around them ([with] connection blocks,
    [try]/[except], explicit [commit]/[rollback], logging).

    Modelling conventions.
    - Rows are records whose fields carry the SQL alias used in the queries
      ([p_name] is [p.name], [oi_quantity] is [oi.quantity], ...).
    - Columns are typed by the schema: TEXT columns hold strings, INTEGER
      columns hold [Z], DECIMAL columns hold exact rationals [Q] (binary
      floating point rounding is idealised away), nullable columns are
      [option].  SQLite's 64-bit integer range is not modelled.
    - Dictionaries passed to the methods are records with one optional
      field per key the method reads, the values being of the column's
      type.
    - Strings are ASCII strings; text comparison is byte-wise.
    - Connections opened by [get_connection] never execute
      [PRAGMA foreign_keys = ON] (only the connection of [init_database]
      does, and the pragma is per connection), so foreign-key actions
      (RESTRICT, CASCADE, SET NULL) are not enforced by the statements
      modelled here.  NOT NULL, UNIQUE and CHECK constraints are.
    - Where SQL leaves the order of rows open (ties of ORDER BY, order of
      groups), the model scans tables in row order and sorts stably. *)

From Stdlib Require Import List ZArith QArith Qround String Ascii Bool Lia.
From Stdlib Require Import Sorted Permutation.
Import ListNotations.

Open Scope Z_scope.

(** ** Python values and exceptions *)

(** [sqlite3.Error] subclasses raised by the engine. *)
Inductive sqlite_error : Type :=
| IntegrityError     (* NOT NULL, UNIQUE or CHECK constraint failed *)
| OperationalError.  (* the engine could not run the statement *)

Inductive exn : Type :=
| SqliteError (e : sqlite_error)
| KeyError (key : string)
| ValueError.

(** What a call of a method does: return a value or raise. *)
Inductive outcome (A : Type) : Type :=
| Returned (a : A)
| Raised (e : exn).
Arguments Returned {A} a.
Arguments Raised {A} e.

(** A Python number bound to a [?] placeholder: [int] binds as an SQLite
    INTEGER, [float] as a REAL. *)
Inductive pynum : Type :=
| PyInt (z : Z)
| PyFloat (q : Q).

Definition pynum_value (n : pynum) : Q :=
  match n with
  | PyInt z => inject_Z z
  | PyFloat q => q
  end.


(** ** The schema (init_database) *)

Inductive order_status : Type :=
| Pending | Confirmed | Shipped | Delivered | Cancelled.

Definition is_cancelled (s : order_status) : bool :=
  match s with Cancelled => true | _ => false end.

Record category : Type := {
  c_category_id : Z;
  c_name : string;                 (* NOT NULL UNIQUE *)
  c_description : option string;
  c_created_at : string }.

Record product : Type := {
  p_product_id : Z;
  p_name : string;                 (* NOT NULL *)
  p_description : option string;
  p_price : Q;                     (* NOT NULL CHECK(price >= 0) *)
  p_stock_quantity : Z;            (* NOT NULL CHECK(stock_quantity >= 0) *)
  p_category_id : option Z;
  p_created_at : string }.

Record customer : Type := {
  cu_customer_id : Z;
  cu_first_name : string;
  cu_last_name : string;
  cu_email : string;
  cu_phone : option string;
  cu_registration_date : string }.

Record order : Type := {
  o_order_id : Z;
  o_customer_id : Z;
  o_order_date : string;
  o_total_amount : Q;
  o_status : order_status }.

Record order_item : Type := {
  oi_order_item_id : Z;
  oi_order_id : Z;
  oi_product_id : Z;
  oi_quantity : Z;                 (* CHECK(quantity > 0) *)
  oi_unit_price : Q }.

(** [subtotal] is GENERATED ALWAYS AS (quantity * unit_price) VIRTUAL. *)
Definition oi_subtotal (oi : order_item) : Q :=
  (inject_Z (oi_quantity oi) * oi_unit_price oi)%Q.

(** The database file: the five tables and SQLite's [sqlite_sequence]
    table, which holds for each AUTOINCREMENT table the largest rowid ever
    assigned. *)
Record database : Type := {
  products : list product;
  categories : list category;
  customers : list customer;
  orders : list order;
  order_items : list order_item;
  sqlite_sequence : list (string * Z) }.

Definition empty_database : database :=
  {| products := []; categories := []; customers := []; orders := [];
     order_items := []; sqlite_sequence := [] |}.

(** Primary keys are unique in every table the engine maintains. *)
Record primary_keys_unique (db : database) : Prop := {
  pk_products : NoDup (map p_product_id (products db));
  pk_categories : NoDup (map c_category_id (categories db));
  pk_orders : NoDup (map o_order_id (orders db)) }.

(** ** SQL building blocks *)

Section Relational.
Context {A B K : Type}.

(** [l JOIN r ON on]. *)
Definition inner_join (on : A -> B -> bool) (l : list A) (r : list B)
  : list (A * B) :=
  flat_map (fun a => map (pair a) (filter (on a) r)) l.

(** [l LEFT JOIN r ON on]: a left row without a match is kept once, with
    NULL for the columns of [r]. *)
Definition left_join (on : A -> B -> bool) (l : list A) (r : list B)
  : list (A * option B) :=
  flat_map (fun a =>
              match filter (on a) r with
              | [] => [(a, None)]
              | matches => map (fun b => (a, Some b)) matches
              end) l.

(** The distinct values of a list, in order of first occurrence. *)
Fixpoint distinct (eqb : K -> K -> bool) (ks : list K) : list K :=
  match ks with
  | [] => []
  | k :: ks' => k :: filter (fun k' => negb (eqb k' k)) (distinct eqb ks')
  end.

(** [GROUP BY key]: one group per distinct key, holding the rows with that
    key in their original order. *)
Definition group_by (eqb : K -> K -> bool) (key : A -> K) (rows : list A)
  : list (K * list A) :=
  map (fun k => (k, filter (fun r => eqb (key r) k) rows))
      (distinct eqb (map key rows)).

(** [ORDER BY]: stable insertion sort; [before x y] says that [x] may
    stand before [y]. *)
Fixpoint insert_row (before : A -> A -> bool) (x : A) (l : list A) : list A :=
  match l with
  | [] => [x]
  | y :: l' => if before x y then x :: y :: l'
               else y :: insert_row before x l'
  end.

Fixpoint order_by (before : A -> A -> bool) (l : list A) : list A :=
  match l with
  | [] => []
  | x :: l' => insert_row before x (order_by before l')
  end.

(** [LIMIT limit OFFSET offset]: a negative limit means no limit, a
    negative offset means no offset. *)
Definition limit_offset (limit offset : Z) (rows : list A) : list A :=
  let rest := skipn (Z.to_nat offset) rows in
  if limit <? 0 then rest else firstn (Z.to_nat limit) rest.
End Relational.

(** *** Aggregates *)

Definition sum_Z (l : list Z) : Z := fold_right Z.add 0 l.
Definition sum_Q (l : list Q) : Q := fold_right Qplus 0%Q l.

(** [SUM] over the non-NULL values of a group is NULL when there are none. *)
Definition sql_sum_Z (l : list Z) : option Z :=
  match l with [] => None | _ => Some (sum_Z l) end.
Definition sql_sum_Q (l : list Q) : option Q :=
  match l with [] => None | _ => Some (sum_Q l) end.

Definition Qmax (a b : Q) : Q := if Qle_bool a b then b else a.
Definition Qmin (a b : Q) : Q := if Qle_bool a b then a else b.

Definition sql_max_Q (l : list Q) : option Q :=
  match l with [] => None | x :: l' => Some (fold_left Qmax l' x) end.
Definition sql_min_Q (l : list Q) : option Q :=
  match l with [] => None | x :: l' => Some (fold_left Qmin l' x) end.
Definition sql_avg_Q (l : list Q) : option Q :=
  match l with
  | [] => None
  | _ => Some (sum_Q l / inject_Z (Z.of_nat (List.length l)))%Q
  end.

(** The non-NULL values of a column. *)
Fixpoint non_null {A : Type} (l : list (option A)) : list A :=
  match l with
  | [] => []
  | Some x :: l' => x :: non_null l'
  | None :: l' => non_null l'
  end.

(** *** Scalar functions and operators *)

(** [ROUND(x, 2)]: to two decimals, halves away from zero. *)
Definition sql_round2 (x : Q) : Q :=
  let scaled := (x * 100)%Q in
  let n := if Qle_bool 0 x then Qfloor (scaled + (1 # 2))
           else - Qfloor (- scaled + (1 # 2)) in
  Qred (n # 100).

(** [? / 100]: SQLite divides two INTEGERs as integers, truncating toward
    zero; as soon as one operand is REAL the division is real. *)
Definition sql_div_100 (x : pynum) : Q :=
  match x with
  | PyInt z => inject_Z (Z.quot z 100)
  | PyFloat q => (q / 100)%Q
  end.

(** [x = y] on a nullable column: NULL never compares equal. *)
Definition sql_eq_opt (x : option Z) (y : Z) : bool :=
  match x with Some v => v =? y | None => false end.

Definition lower (c : ascii) : ascii :=
  let n := nat_of_ascii c in
  if ((65 <=? n) && (n <=? 90))%nat then ascii_of_nat (n + 32) else c.

(** [text LIKE pattern] (no ESCAPE clause): [%] matches any run of
    characters, [_] exactly one, every other character itself, ignoring the
    case of ASCII letters. *)
Fixpoint like_chars (pattern text : list ascii) : bool :=
  match pattern with
  | [] => match text with [] => true | _ => false end
  | c :: pattern' =>
      if Ascii.eqb c "%" then
        (fix any_run (t : list ascii) : bool :=
           like_chars pattern' t
           || match t with [] => false | _ :: t' => any_run t' end) text
      else
        match text with
        | [] => false
        | d :: text' =>
            (Ascii.eqb c "_" || Ascii.eqb (lower c) (lower d))
            && like_chars pattern' text'
        end
  end.

Definition sql_like (text pattern : string) : bool :=
  like_chars (list_ascii_of_string pattern) (list_ascii_of_string text).

(** [text LIKE pattern] on a nullable column is NULL, hence not true, for
    NULL. *)
Definition sql_like_opt (text : option string) (pattern : string) : bool :=
  match text with Some t => sql_like t pattern | None => false end.

(** ** Connections, transactions and the log *)

(** The condition of the storage engine during a call.  [Faulty] stands for
    any condition (locked or unreadable file, full disk) in which every
    statement raises [sqlite3.OperationalError].  Opening the connection
    itself is taken to succeed. *)
Inductive engine : Type := Healthy | Faulty.

Inductive log_level : Type := INFO | WARNING | ERROR.

(** One constructor per message of [self.logger]. *)
Inductive log_message : Type :=
| CategoryCreated (name : string) (category_id : Z)
| CategoryExists (name : string)
| ProductCreated (name : option string) (product_id : Z)
| ProductCreateFailed
| BatchCreated (count : Z)
| BatchCreateFailed
| ProductsFetched (count : Z) (page : Z)
| ProductsFetchFailed
| ProductNotFound (product_id : Z)
| NothingToUpdate
| ProductUpdated (product_id : Z)
| UpdateFailed
| PricesUpdated (affected_rows : Z) (category_id : Z)
| PricesUpdateFailed
| DeleteRefused (product_id : Z)
| ProductDeleted (product_id : Z)
| DeleteFailed
| TableNotAllowed (table_name : string)
| TableTruncated (table_name : string)
| TruncateFailed
| SalesReportBuilt (count : Z)
| SalesReportFailed
| CustomerOrdersFetched (count : Z) (customer_id : Z)
| CustomerOrdersFailed
| PopularProductsFetched (count : Z)
| PopularProductsFailed.

Definition log_event : Type := log_level * log_message.

(** The database file together with the connection a method opens on it:
    [durable] is the committed content, [pending] what the connection sees,
    including the writes of its open transaction. *)
Record session : Type := {
  engine_state : engine;
  clock : string;                  (* CURRENT_TIMESTAMP *)
  durable : database;
  pending : database;
  journal : list log_event }.

(** [get_connection] on a database file. *)
Definition connect (e : engine) (now : string) (db : database) : session :=
  {| engine_state := e; clock := now; durable := db; pending := db;
     journal := [] |}.

(** Method bodies: state passing over the session, with exceptions. *)
Definition M (A : Type) : Type := session -> outcome A * session.

Definition ret {A : Type} (a : A) : M A := fun s => (Returned a, s).

Definition bind {A B : Type} (m : M A) (k : A -> M B) : M B :=
  fun s => match m s with
           | (Returned a, s') => k a s'
           | (Raised e, s') => (Raised e, s')
           end.

Notation "x <- c1 ;; c2" := (bind c1 (fun x => c2))
  (at level 61, c1 at next level, right associativity).
Notation "c1 ;; c2" := (bind c1 (fun _ => c2))
  (at level 61, right associativity).

Definition raise {A : Type} (e : exn) : M A := fun s => (Raised e, s).

Definition lift {A : Type} (o : outcome A) : M A := fun s => (o, s).

Definition current_timestamp : M string := fun s => (Returned (clock s), s).

Definition log (lvl : log_level) (msg : log_message) : M unit :=
  fun s => (Returned tt,
            {| engine_state := engine_state s; clock := clock s;
               durable := durable s; pending := pending s;
               journal := journal s ++ [(lvl, msg)] |}).

(** [conn.commit()] and [conn.rollback()]. *)
Definition commit_session (s : session) : session :=
  {| engine_state := engine_state s; clock := clock s;
     durable := pending s; pending := pending s; journal := journal s |}.

Definition rollback_session (s : session) : session :=
  {| engine_state := engine_state s; clock := clock s;
     durable := durable s; pending := durable s; journal := journal s |}.

Definition commit : M unit := fun s => (Returned tt, commit_session s).
Definition rollback : M unit := fun s => (Returned tt, rollback_session s).

(** What one SQL statement does to the content the connection sees. *)
Inductive exec_result (A : Type) : Type :=
| Done (a : A) (db : database)
| Failed (e : sqlite_error).
Arguments Done {A} a db.
Arguments Failed {A} e.

Definition statement (A : Type) : Type := database -> exec_result A.

(** [cursor.execute(...)]: a failed statement changes nothing. *)
Definition execute {A : Type} (stmt : statement A) : M A :=
  fun s =>
    match engine_state s with
    | Faulty => (Raised (SqliteError OperationalError), s)
    | Healthy =>
        match stmt (pending s) with
        | Done a db' =>
            (Returned a,
             {| engine_state := engine_state s; clock := clock s;
                durable := durable s; pending := db'; journal := journal s |})
        | Failed e => (Raised (SqliteError e), s)
        end
    end.

(** A SELECT only reads. *)
Definition select {A : Type} (q : database -> A) : statement A :=
  fun db => Done (q db) db.

(** [with self.get_connection() as conn: body]: the connection's context
    manager commits when the body is left normally (also by [return]) and
    rolls back when it is left by an exception, which it lets through. *)
Definition with_connection {A : Type} (body : M A) : M A :=
  fun s => match body s with
           | (Returned a, s') => (Returned a, commit_session s')
           | (Raised e, s') => (Raised e, rollback_session s')
           end.

(** [try: body except <catches>: handler]. *)
Definition try_except {A : Type} (body : M A) (catches : exn -> bool)
           (handler : exn -> M A) : M A :=
  fun s => match body s with
           | (Raised e, s') => if catches e then handler e s'
                               else (Raised e, s')
           | r => r
           end.

Definition sqlite3_Error (e : exn) : bool :=
  match e with SqliteError _ => true | _ => false end.

Definition sqlite3_IntegrityError (e : exn) : bool :=
  match e with SqliteError IntegrityError => true | _ => false end.

(** [for x in l: f x]. *)
Fixpoint for_each {A : Type} (f : A -> M unit) (l : list A) : M unit :=
  match l with
  | [] => ret tt
  | x :: l' => f x ;; for_each f l'
  end.

(** ** Table updates *)

Definition set_products (db : database) (ps : list product) : database :=
  {| products := ps; categories := categories db; customers := customers db;
     orders := orders db; order_items := order_items db;
     sqlite_sequence := sqlite_sequence db |}.

Definition set_categories (db : database) (cs : list category) : database :=
  {| products := products db; categories := cs; customers := customers db;
     orders := orders db; order_items := order_items db;
     sqlite_sequence := sqlite_sequence db |}.

Definition set_customers (db : database) (cs : list customer) : database :=
  {| products := products db; categories := categories db; customers := cs;
     orders := orders db; order_items := order_items db;
     sqlite_sequence := sqlite_sequence db |}.

Definition set_orders (db : database) (os : list order) : database :=
  {| products := products db; categories := categories db;
     customers := customers db; orders := os; order_items := order_items db;
     sqlite_sequence := sqlite_sequence db |}.

Definition set_order_items (db : database) (ois : list order_item) : database :=
  {| products := products db; categories := categories db;
     customers := customers db; orders := orders db; order_items := ois;
     sqlite_sequence := sqlite_sequence db |}.

Definition set_sqlite_sequence (db : database) (seq : list (string * Z))
  : database :=
  {| products := products db; categories := categories db;
     customers := customers db; orders := orders db;
     order_items := order_items db; sqlite_sequence := seq |}.

(** *** AUTOINCREMENT *)

Definition sequence_of (table : string) (seq : list (string * Z)) : Z :=
  match find (fun r => String.eqb (fst r) table) seq with
  | Some r => snd r
  | None => 0
  end.

Definition max_rowid (ids : list Z) : Z := fold_right Z.max 0 ids.

(** The rowid of the next row inserted into an AUTOINCREMENT table: one more
    than the largest rowid the table holds or ever held. *)
Definition next_rowid (table : string) (ids : list Z) (db : database) : Z :=
  Z.max (sequence_of table (sqlite_sequence db)) (max_rowid ids) + 1.

Definition forget_sequence (table : string) (seq : list (string * Z))
  : list (string * Z) :=
  filter (fun r => negb (String.eqb (fst r) table)) seq.

Definition record_rowid (table : string) (id : Z) (seq : list (string * Z))
  : list (string * Z) :=
  forget_sequence table seq ++ [(table, id)].

(** ** CRUD operations *)

(** *** create_category *)

(** [INSERT INTO categories (name, description) VALUES (?, ?)]. *)
Definition insert_category (name description created_at : string)
  : statement Z :=
  fun db =>
    if existsb (fun c => String.eqb (c_name c) name) (categories db)
    then Failed IntegrityError            (* UNIQUE(name) *)
    else
      let id := next_rowid "categories"
                           (map c_category_id (categories db)) db in
      let row := {| c_category_id := id; c_name := name;
                    c_description := Some description;
                    c_created_at := created_at |} in
      Done id (set_sqlite_sequence
                 (set_categories db (categories db ++ [row]))
                 (record_rowid "categories" id (sqlite_sequence db))).

Definition create_category (name description : string) : M Z :=
  try_except
    (with_connection
       (created_at <- current_timestamp ;;
        category_id <- execute (insert_category name description created_at) ;;
        commit ;;
        log INFO (CategoryCreated name category_id) ;;
        ret category_id))
    sqlite3_IntegrityError
    (fun e => log ERROR (CategoryExists name) ;; raise e).

(** *** create_product and batch_create_products *)

(** A product dictionary, restricted to the keys the methods read and to
    values of the column's type.  The outer [None] is an absent key, the
    inner [None] the Python value [None]. *)
Record product_data : Type := {
  d_name : option (option string);
  d_description : option (option string);
  d_price : option (option pynum);
  d_stock_quantity : option (option Z);
  d_category_id : option (option Z) }.

(** The parameter tuple of the INSERT; [None] binds as NULL. *)
Record product_values : Type := {
  v_name : option string;
  v_description : option string;
  v_price : option pynum;
  v_stock_quantity : option Z;
  v_category_id : option Z }.

(** [d[key]]. *)
Definition subscript {A : Type} (key : string) (field : option A) : outcome A :=
  match field with
  | Some v => Returned v
  | None => Raised (KeyError key)
  end.

(** [d.get(key, default)]. *)
Definition get_default {A : Type} (field : option A) (default : A) : A :=
  match field with
  | Some v => v
  | None => default
  end.

(** [(product['name'], product.get('description', ''), product['price'],
      product.get('stock_quantity', 0), product['category_id'])],
    evaluated left to right. *)
Definition insert_parameters (product : product_data) : outcome product_values :=
  match subscript "name" (d_name product) with
  | Raised e => Raised e
  | Returned name =>
      let description := get_default (d_description product) (Some ""%string) in
      match subscript "price" (d_price product) with
      | Raised e => Raised e
      | Returned price =>
          let stock := get_default (d_stock_quantity product) (Some 0) in
          match subscript "category_id" (d_category_id product) with
          | Raised e => Raised e
          | Returned category_id =>
              Returned {| v_name := name; v_description := description;
                          v_price := price; v_stock_quantity := stock;
                          v_category_id := category_id |}
          end
      end
  end.

(** The NOT NULL and CHECK constraints of [products]. *)
Definition product_constraints (v : product_values) : bool :=
  match v_name v, v_price v, v_stock_quantity v with
  | Some _, Some price, Some stock =>
      Qle_bool 0 (pynum_value price) && (0 <=? stock)
  | _, _, _ => false
  end.

(** [INSERT INTO products (name, description, price, stock_quantity,
    category_id) VALUES (?, ?, ?, ?, ?)]. *)
Definition insert_product (v : product_values) (created_at : string)
  : statement Z :=
  fun db =>
    match v_name v, v_price v, v_stock_quantity v with
    | Some name, Some price, Some stock =>
        if product_constraints v then
          let id := next_rowid "products" (map p_product_id (products db)) db in
          let row := {| p_product_id := id; p_name := name;
                        p_description := v_description v;
                        p_price := pynum_value price;
                        p_stock_quantity := stock;
                        p_category_id := v_category_id v;
                        p_created_at := created_at |} in
          Done id (set_sqlite_sequence
                     (set_products db (products db ++ [row]))
                     (record_rowid "products" id (sqlite_sequence db)))
        else Failed IntegrityError
    | _, _, _ => Failed IntegrityError
    end.

Definition has_required_fields (product : product_data) : bool :=
  match d_name product, d_price product, d_category_id product with
  | Some _, Some _, Some _ => true
  | _, _, _ => false
  end.

Definition create_product (product : product_data) : M Z :=
  if negb (has_required_fields product) then raise ValueError
  else
    try_except
      (with_connection
         (values <- lift (insert_parameters product) ;;
          created_at <- current_timestamp ;;
          product_id <- execute (insert_product values created_at) ;;
          commit ;;
          log INFO (ProductCreated (v_name values) product_id) ;;
          ret product_id))
      sqlite3_Error
      (fun e => log ERROR ProductCreateFailed ;; raise e).

(** The body of the loop of [batch_create_products]. *)
Definition insert_one (product : product_data) : M unit :=
  values <- lift (insert_parameters product) ;;
  created_at <- current_timestamp ;;
  execute (insert_product values created_at) ;;
  ret tt.

Definition batch_create_products (products : list product_data) : M bool :=
  try_except
    (with_connection
       (for_each insert_one products ;;
        commit ;;
        log INFO (BatchCreated (Z.of_nat (List.length products))) ;;
        ret true))
    sqlite3_Error
    (fun _ => rollback ;; log ERROR BatchCreateFailed ;; ret false).

(** *** get_products *)

(** The recognised keys of [filters]; [None] is an absent key. *)
Record product_filters : Type := {
  f_category_id : option Z;
  f_min_price : option pynum;
  f_max_price : option pynum;
  f_search : option string }.

Definition no_filters : product_filters :=
  {| f_category_id := None; f_min_price := None; f_max_price := None;
     f_search := None |}.

(** A row of [SELECT p.*, c.name as category_name]. *)
Record product_row : Type := {
  pr_product : product;
  pr_category_name : option string }.

(** The WHERE clause assembled from the filters; the search value is put
    between two [%] as it is. *)
Definition products_where (filters : product_filters) (p : product) : bool :=
  match f_category_id filters with
  | Some cid => sql_eq_opt (p_category_id p) cid
  | None => true
  end
  && match f_min_price filters with
     | Some lo => Qle_bool (pynum_value lo) (p_price p)
     | None => true
     end
  && match f_max_price filters with
     | Some hi => Qle_bool (p_price p) (pynum_value hi)
     | None => true
     end
  && match f_search filters with
     | Some search =>
         let pattern := ("%" ++ search ++ "%")%string in
         sql_like (p_name p) pattern || sql_like_opt (p_description p) pattern
     | None => true
     end.

Definition select_products (filters : product_filters) (page per_page : Z)
  : database -> list product_row :=
  fun db =>
    let joined :=
      left_join (fun p c => sql_eq_opt (p_category_id p) (c_category_id c))
                (products db) (categories db) in
    let kept := filter (fun pc => products_where filters (fst pc)) joined in
    let sorted :=
      order_by (fun a b => String.leb (p_created_at (fst b))
                                      (p_created_at (fst a))) kept in
    map (fun pc => {| pr_product := fst pc;
                      pr_category_name := option_map c_name (snd pc) |})
        (limit_offset per_page ((page - 1) * per_page) sorted).

Definition get_products (filters : product_filters) (page per_page : Z)
  : M (list product_row) :=
  try_except
    (with_connection
       (products <- execute (select (select_products filters page per_page)) ;;
        log INFO (ProductsFetched (Z.of_nat (List.length products)) page) ;;
        ret products))
    sqlite3_Error
    (fun _ => log ERROR ProductsFetchFailed ;; ret []).

(** *** update_product *)

(** The whitelisted keys of [update_data], with values of the column's
    type; the outer [None] is an absent key.  Other keys are ignored by the
    method. *)
Record product_update : Type := {
  u_name : option (option string);
  u_description : option (option string);
  u_price : option (option pynum);
  u_stock_quantity : option (option Z);
  u_category_id : option (option Z) }.

(** [SELECT 1 FROM products WHERE product_id = ?] followed by
    [fetchone()]. *)
Definition product_exists (product_id : Z) (db : database) : bool :=
  existsb (fun p => p_product_id p =? product_id) (products db).

(** [set_clause] is not empty. *)
Definition has_set_clause (u : product_update) : bool :=
  match u_name u, u_description u, u_price u, u_stock_quantity u,
        u_category_id u with
  | None, None, None, None, None => false
  | _, _, _, _, _ => true
  end.

(** The row after [SET field = ?, ...]; [None] when the new values violate
    a NOT NULL or CHECK constraint. *)
Definition updated_product (u : product_update) (p : product) : option product :=
  let name := get_default (u_name u) (Some (p_name p)) in
  let price :=
    match u_price u with
    | Some v => option_map pynum_value v
    | None => Some (p_price p)
    end in
  let stock := get_default (u_stock_quantity u) (Some (p_stock_quantity p)) in
  match name, price, stock with
  | Some n, Some q, Some s =>
      if Qle_bool 0 q && (0 <=? s) then
        Some {| p_product_id := p_product_id p; p_name := n;
                p_description :=
                  get_default (u_description u) (p_description p);
                p_price := q; p_stock_quantity := s;
                p_category_id :=
                  get_default (u_category_id u) (p_category_id p);
                p_created_at := p_created_at p |}
      else None
  | _, _, _ => None
  end.

Fixpoint update_rows (product_id : Z) (u : product_update)
         (ps : list product) : option (list product) :=
  match ps with
  | [] => Some []
  | p :: ps' =>
      match (if p_product_id p =? product_id then updated_product u p
             else Some p),
            update_rows product_id u ps' with
      | Some p', Some rest => Some (p' :: rest)
      | _, _ => None
      end
  end.

(** [UPDATE products SET ... WHERE product_id = ?]. *)
Definition update_products (product_id : Z) (u : product_update)
  : statement unit :=
  fun db =>
    match update_rows product_id u (products db) with
    | Some ps => Done tt (set_products db ps)
    | None => Failed IntegrityError
    end.

Definition update_product (product_id : Z) (update_data : product_update)
  : M bool :=
  try_except
    (with_connection
       (found <- execute (select (product_exists product_id)) ;;
        if negb found then
          (log WARNING (ProductNotFound product_id) ;;
           ret false)
        else if negb (has_set_clause update_data) then
          (log WARNING NothingToUpdate ;;
           ret false)
        else
          (execute (update_products product_id update_data) ;;
           commit ;;
           log INFO (ProductUpdated product_id) ;;
           ret true)))
    sqlite3_Error
    (fun _ => log ERROR UpdateFailed ;; ret false).

(** *** bulk_update_prices *)

Definition set_price (p : product) (price : Q) : product :=
  {| p_product_id := p_product_id p; p_name := p_name p;
     p_description := p_description p; p_price := price;
     p_stock_quantity := p_stock_quantity p;
     p_category_id := p_category_id p; p_created_at := p_created_at p |}.

(** [WHERE category_id = ?]. *)
Definition in_category (category_id : Z) (p : product) : bool :=
  sql_eq_opt (p_category_id p) category_id.

(** [ROUND(price * (1 + ? / 100), 2)]. *)
Definition increased_price (price : Q) (increase_percent : pynum) : Q :=
  sql_round2 (price * (1 + sql_div_100 increase_percent))%Q.

(** [UPDATE products SET price = ROUND(price * (1 + ? / 100), 2)
     WHERE category_id = ?]; the result is [cursor.rowcount]. *)
Definition update_prices (increase_percent : pynum) (category_id : Z)
  : statement Z :=
  fun db =>
    let update p :=
      if in_category category_id p
      then set_price p (increased_price (p_price p) increase_percent)
      else p in
    let products' := map update (products db) in
    if forallb (fun p => Qle_bool 0 (p_price p))
               (filter (in_category category_id) products')
    then Done (Z.of_nat (List.length (filter (in_category category_id)
                                             (products db))))
              (set_products db products')
    else Failed IntegrityError.          (* CHECK(price >= 0) *)

Definition bulk_update_prices (category_id : Z) (increase_percent : pynum)
  : M bool :=
  try_except
    (with_connection
       (affected_rows <- execute (update_prices increase_percent category_id) ;;
        commit ;;
        log INFO (PricesUpdated affected_rows category_id) ;;
        ret true))
    sqlite3_Error
    (fun _ => rollback ;; log ERROR PricesUpdateFailed ;; ret false).

(** *** delete_product *)

(** [SELECT COUNT( * ) FROM order_items WHERE product_id = ?]. *)
Definition count_order_items (product_id : Z) (db : database) : Z :=
  Z.of_nat (List.length (filter (fun oi => oi_product_id oi =? product_id)
                                (order_items db))).

(** [DELETE FROM products WHERE product_id = ?]. *)
Definition delete_from_products (product_id : Z) : statement unit :=
  fun db =>
    Done tt (set_products db
               (filter (fun p => negb (p_product_id p =? product_id))
                       (products db))).

Definition delete_product (product_id : Z) : M bool :=
  try_except
    (with_connection
       (order_count <- execute (select (count_order_items product_id)) ;;
        if order_count >? 0 then
          (log WARNING (DeleteRefused product_id) ;;
           ret false)
        else
          (execute (delete_from_products product_id) ;;
           commit ;;
           log INFO (ProductDeleted product_id) ;;
           ret true)))
    sqlite3_Error
    (fun _ => log ERROR DeleteFailed ;; ret false).

(** *** truncate_table *)

Definition allowed_tables : list string :=
  ["products"; "categories"; "customers"; "orders"; "order_items"]%string.

(** [DELETE FROM <table_name>]. *)
Definition delete_all (table_name : string) : statement unit :=
  fun db =>
    if String.eqb table_name "products" then Done tt (set_products db [])
    else if String.eqb table_name "categories" then
      Done tt (set_categories db [])
    else if String.eqb table_name "customers" then
      Done tt (set_customers db [])
    else if String.eqb table_name "orders" then Done tt (set_orders db [])
    else if String.eqb table_name "order_items" then
      Done tt (set_order_items db [])
    else Failed OperationalError.        (* no such table *)

(** [DELETE FROM sqlite_sequence WHERE name = ?]. *)
Definition delete_sequence (table_name : string) : statement unit :=
  fun db =>
    Done tt (set_sqlite_sequence db
               (forget_sequence table_name (sqlite_sequence db))).

Definition truncate_table (table_name : string) : M bool :=
  if negb (existsb (String.eqb table_name) allowed_tables) then
    log ERROR (TableNotAllowed table_name) ;;
    ret false
  else
    try_except
      (with_connection
         (execute (delete_all table_name) ;;
          execute (delete_sequence table_name) ;;
          commit ;;
          log INFO (TableTruncated table_name) ;;
          ret true))
      sqlite3_Error
      (fun _ => rollback ;; log ERROR TruncateFailed ;; ret false).

(** ** Reporting queries *)

(** NULL sorts below every value. *)
Definition sql_compare_Z (a b : option Z) : comparison :=
  match a, b with
  | None, None => Eq
  | None, Some _ => Lt
  | Some _, None => Gt
  | Some x, Some y => x ?= y
  end.

Definition sql_compare_Q (a b : option Q) : comparison :=
  match a, b with
  | None, None => Eq
  | None, Some _ => Lt
  | Some _, None => Gt
  | Some x, Some y => (x ?= y)%Q
  end.

(** *** get_sales_report *)

Record sales_row : Type := {
  sr_category_name : string;
  sr_items_sold : Z;
  sr_total_quantity : option Z;
  sr_total_revenue : option Q;
  sr_avg_price : option Q;
  sr_max_price : option Q;
  sr_min_price : option Q }.

(** A row of [order_items oi JOIN products p JOIN categories c JOIN orders o]. *)
Definition sales_joined : Type := order_item * product * category * order.

Definition sj_item (j : sales_joined) : order_item := fst (fst (fst j)).
Definition sj_product (j : sales_joined) : product := snd (fst (fst j)).
Definition sj_category (j : sales_joined) : category := snd (fst j).
Definition sj_order (j : sales_joined) : order := snd j.

(** The rows of the join for a list of order items. *)
Definition sales_rows (db : database) (items : list order_item)
  : list sales_joined :=
  inner_join
    (fun opc o => oi_order_id (fst (fst opc)) =? o_order_id o)
    (inner_join
       (fun op c => sql_eq_opt (p_category_id (snd op)) (c_category_id c))
       (inner_join (fun oi p => oi_product_id oi =? p_product_id p)
                   items (products db))
       (categories db))
    (orders db).

Definition sales_join (db : database) : list sales_joined :=
  sales_rows db (order_items db).

(** [if start_date:] holds for a non-empty string only. *)
Definition given (date : option string) : option string :=
  match date with
  | Some EmptyString => None
  | d => d
  end.

(** [o.status != 'cancelled' AND o.order_date >= ? AND o.order_date <= ?],
    the date conditions only when the dates are given. *)
Definition sales_where (start_date end_date : option string) (o : order) : bool :=
  negb (is_cancelled (o_status o))
  && match given start_date with
     | Some d => String.leb d (o_order_date o)
     | None => true
     end
  && match given end_date with
     | Some d => String.leb (o_order_date o) d
     | None => true
     end.

Definition in_period (start_date end_date : option string)
           (j : sales_joined) : bool :=
  sales_where start_date end_date (sj_order j).

Definition category_key : Type := Z * string.

Definition category_key_eqb (a b : category_key) : bool :=
  (fst a =? fst b) && String.eqb (snd a) (snd b).

Definition sales_key (j : sales_joined) : category_key :=
  (c_category_id (sj_category j), c_name (sj_category j)).

Definition sales_aggregate (g : category_key * list sales_joined) : sales_row :=
  let items := map sj_item (snd g) in
  {| sr_category_name := snd (fst g);
     sr_items_sold := Z.of_nat (List.length items);
     sr_total_quantity := sql_sum_Z (map oi_quantity items);
     sr_total_revenue := sql_sum_Q (map oi_subtotal items);
     sr_avg_price := sql_avg_Q (map oi_unit_price items);
     sr_max_price := sql_max_Q (map oi_unit_price items);
     sr_min_price := sql_min_Q (map oi_unit_price items) |}.

(** [ORDER BY total_revenue DESC]. *)
Definition by_revenue_desc (a b : sales_row) : bool :=
  match sql_compare_Q (sr_total_revenue a) (sr_total_revenue b) with
  | Lt => false
  | _ => true
  end.

Definition select_sales_report (start_date end_date : option string)
  : database -> list sales_row :=
  fun db =>
    let kept := filter (in_period start_date end_date) (sales_join db) in
    order_by by_revenue_desc
             (map sales_aggregate (group_by category_key_eqb sales_key kept)).

Definition get_sales_report (start_date end_date : option string)
  : M (list sales_row) :=
  try_except
    (with_connection
       (report <- execute (select (select_sales_report start_date end_date)) ;;
        log INFO (SalesReportBuilt (Z.of_nat (List.length report))) ;;
        ret report))
    sqlite3_Error
    (fun _ => log ERROR SalesReportFailed ;; ret []).

(** *** get_customer_orders *)

Record customer_order_row : Type := {
  co_order_id : Z;
  co_order_date : string;
  co_status : order_status;
  co_total_amount : Q;
  co_item_count : Z;
  co_product_names : option string }.

(** A row of [orders o LEFT JOIN order_items oi LEFT JOIN products p]. *)
Definition history_joined : Type := order * option order_item * option product.

Definition hj_order (j : history_joined) : order := fst (fst j).
Definition hj_product (j : history_joined) : option product := snd j.

Definition history_join (db : database) : list history_joined :=
  left_join
    (fun ooi p => match snd ooi with
                  | Some oi => oi_product_id oi =? p_product_id p
                  | None => false
                  end)
    (left_join (fun o oi => o_order_id o =? oi_order_id oi)
               (orders db) (order_items db))
    (products db).

(** [GROUP_CONCAT(x, ', ')] over the non-NULL values of a group. *)
Definition group_concat (names : list string) : option string :=
  match names with
  | [] => None
  | n :: rest => Some (fold_left (fun acc x => (acc ++ ", " ++ x)%string) rest n)
  end.

(** The columns of [o] are bare columns of the group: they are read from a
    row of the group, here the first. *)
Definition history_aggregate (db : database) (g : Z * list history_joined)
  : option customer_order_row :=
  match snd g with
  | [] => None
  | j :: _ =>
      let o := hj_order j in
      Some {| co_order_id := o_order_id o;
              co_order_date := o_order_date o;
              co_status := o_status o;
              co_total_amount := o_total_amount o;
              co_item_count :=
                Z.of_nat (List.length
                            (filter (fun oi => oi_order_id oi =? o_order_id o)
                                    (order_items db)));
              co_product_names :=
                group_concat
                  (map p_name (non_null (map hj_product (snd g)))) |}
  end.

Definition select_customer_orders (customer_id : Z)
  : database -> list customer_order_row :=
  fun db =>
    let kept := filter (fun j => o_customer_id (hj_order j) =? customer_id)
                       (history_join db) in
    order_by (fun a b => String.leb (co_order_date b) (co_order_date a))
             (non_null
                (map (history_aggregate db)
                     (group_by Z.eqb (fun j => o_order_id (hj_order j)) kept))).

Definition get_customer_orders (customer_id : Z) : M (list customer_order_row) :=
  try_except
    (with_connection
       (orders <- execute (select (select_customer_orders customer_id)) ;;
        log INFO (CustomerOrdersFetched (Z.of_nat (List.length orders))
                                        customer_id) ;;
        ret orders))
    sqlite3_Error
    (fun _ => log ERROR CustomerOrdersFailed ;; ret []).

(** *** get_popular_products *)

Record popular_row : Type := {
  pp_product_id : Z;
  pp_name : string;
  pp_price : Q;
  pp_category_name : option string;
  pp_total_sold : option Z;
  pp_total_revenue : option Q }.

(** A row of [products p LEFT JOIN order_items oi LEFT JOIN orders o
    LEFT JOIN categories c]. *)
Definition popular_joined : Type :=
  product * option order_item * option order * option category.

Definition pj_product (j : popular_joined) : product := fst (fst (fst j)).
Definition pj_item (j : popular_joined) : option order_item :=
  snd (fst (fst j)).
Definition pj_order (j : popular_joined) : option order := snd (fst j).
Definition pj_category (j : popular_joined) : option category := snd j.

Definition popular_join (db : database) : list popular_joined :=
  left_join
    (fun x c => sql_eq_opt (p_category_id (fst (fst x))) (c_category_id c))
    (left_join
       (fun poi o => match snd poi with
                     | Some oi => (oi_order_id oi =? o_order_id o)
                                  && negb (is_cancelled (o_status o))
                     | None => false
                     end)
       (left_join (fun p oi => p_product_id p =? oi_product_id oi)
                  (products db) (order_items db))
       (orders db))
    (categories db).

Definition popular_aggregate (g : Z * list popular_joined) : option popular_row :=
  match snd g with
  | [] => None
  | j :: _ =>
      let items := non_null (map pj_item (snd g)) in
      Some {| pp_product_id := p_product_id (pj_product j);
              pp_name := p_name (pj_product j);
              pp_price := p_price (pj_product j);
              pp_category_name := option_map c_name (pj_category j);
              pp_total_sold := sql_sum_Z (map oi_quantity items);
              pp_total_revenue := sql_sum_Q (map oi_subtotal items) |}
  end.

(** [ORDER BY total_sold DESC, total_revenue DESC]. *)
Definition by_popularity_desc (a b : popular_row) : bool :=
  match sql_compare_Z (pp_total_sold a) (pp_total_sold b) with
  | Gt => true
  | Lt => false
  | Eq => match sql_compare_Q (pp_total_revenue a) (pp_total_revenue b) with
          | Lt => false
          | _ => true
          end
  end.

(** The common table expression [product_sales]. *)
Definition product_sales (db : database) : list popular_row :=
  non_null (map popular_aggregate
                (group_by Z.eqb (fun j => p_product_id (pj_product j))
                          (popular_join db))).

Definition select_popular_products (limit : Z) : database -> list popular_row :=
  fun db => limit_offset limit 0 (order_by by_popularity_desc (product_sales db)).

Definition get_popular_products (limit : Z) : M (list popular_row) :=
  try_except
    (with_connection
       (products <- execute (select (select_popular_products limit)) ;;
        log INFO (PopularProductsFetched (Z.of_nat (List.length products))) ;;
        ret products))
    sqlite3_Error
    (fun _ => log ERROR PopularProductsFailed ;; ret []).

(** ** Sample data

    The data set of [demonstrate_system] (names in English), extended with
    orders: two categories with two products each, a third category without
    products, a product without category, and four orders, one of them
    cancelled. *)

Definition sample_product (id : Z) (name : string) (price : Q)
           (category_id : option Z) : product :=
  {| p_product_id := id; p_name := name; p_description := Some ""%string;
     p_price := price; p_stock_quantity := 10; p_category_id := category_id;
     p_created_at := "2024-01-01 00:00:00" |}.

Definition sample_category (id : Z) (name : string) : category :=
  {| c_category_id := id; c_name := name; c_description := Some ""%string;
     c_created_at := "2024-01-01 00:00:00" |}.

Definition sample_order (id customer_id : Z) (date : string)
           (status : order_status) : order :=
  {| o_order_id := id; o_customer_id := customer_id; o_order_date := date;
     o_total_amount := 0; o_status := status |}.

Definition sample_item (id order_id product_id quantity : Z) (unit_price : Q)
  : order_item :=
  {| oi_order_item_id := id; oi_order_id := order_id;
     oi_product_id := product_id; oi_quantity := quantity;
     oi_unit_price := unit_price |}.

Definition shop : database :=
  {| products :=
       [sample_product 1 "iPhone 13" (79999 # 100) (Some 1);
        sample_product 2 "Samsung Galaxy" (69999 # 100) (Some 1);
        sample_product 3 "War and Peace" (51 # 2) (Some 2);
        sample_product 4 "Crime and Punishment" 20 (Some 2);
        sample_product 5 "Gift card" 10 None];
     categories :=
       [sample_category 1 "Electronics"; sample_category 2 "Books";
        sample_category 3 "Garden"];
     customers := [];
     orders :=
       [sample_order 1 7 "2024-02-01 10:00:00" Confirmed;
        sample_order 2 7 "2024-02-02 10:00:00" Cancelled;
        sample_order 3 8 "2024-02-03 10:00:00" Shipped;
        sample_order 4 7 "2024-02-04 10:00:00" Pending];
     order_items :=
       [sample_item 1 1 1 2 (79999 # 100);
        sample_item 2 1 3 1 (51 # 2);
        sample_item 3 2 4 5 20;
        sample_item 4 3 4 1 20;
        sample_item 5 3 2 1 (69999 # 100)];
     sqlite_sequence :=
       [("categories", 3); ("products", 5); ("orders", 4);
        ("order_items", 5)]%string |}.

(** A catalogue with a single product, priced 20.00, in category 2. *)
Definition one_book : database :=
  set_products empty_database
    [sample_product 4 "Crime and Punishment" 20 (Some 2)].

(** One product whose only order item belongs to a cancelled order. *)
Definition cancelled_sale : database :=
  {| products := [sample_product 1 "iPhone 13" 800 None];
     categories := [];
     customers := [];
     orders := [sample_order 1 7 "2024-02-02 10:00:00" Cancelled];
     order_items := [sample_item 1 1 1 3 800];
     sqlite_sequence := [("products", 1); ("orders", 1); ("order_items", 1)]%string |}.

Definition sample_data (name : option (option string))
           (price : option (option pynum)) : product_data :=
  {| d_name := name; d_description := None; d_price := price;
     d_stock_quantity := Some (Some 5); d_category_id := Some (Some 1) |}.

Definition timestamp : string := "2024-03-01 12:00:00".

(** The row ids of a table, by table name. *)
Definition row_ids (table_name : string) (db : database) : list Z :=
  if String.eqb table_name "products" then map p_product_id (products db)
  else if String.eqb table_name "categories" then
    map c_category_id (categories db)
  else if String.eqb table_name "customers" then
    map cu_customer_id (customers db)
  else if String.eqb table_name "orders" then map o_order_id (orders db)
  else if String.eqb table_name "order_items" then
    map oi_order_item_id (order_items db)
  else [].

(** ** Vocabulary of the statements

    Definitions used to state the properties; they are not part of the
    program. *)

(** An entry of a batch fails insertion when a required key is absent from
    the dictionary or when its values violate a constraint of [products]. *)
Definition insertion_fails (d : product_data) : Prop :=
  (exists k, insert_parameters d = Raised (KeyError k))
  \/ (exists v, insert_parameters d = Returned v
                /\ product_constraints v = false).

(** The match the specification's words describe for [search]: the text
    contains the search value literally, the case of letters ignored. *)
Fixpoint starts_with (needle text : list ascii) : bool :=
  match needle, text with
  | [], _ => true
  | _ :: _, [] => false
  | c :: needle', d :: text' =>
      Ascii.eqb (lower c) (lower d) && starts_with needle' text'
  end.

Fixpoint contains_chars (needle text : list ascii) : bool :=
  starts_with needle text
  || match text with
     | [] => false
     | _ :: text' => contains_chars needle text'
     end.

Definition contains_substring (text needle : string) : bool :=
  contains_chars (list_ascii_of_string needle) (list_ascii_of_string text).

Definition search_for (search : string) : product_filters :=
  {| f_category_id := None; f_min_price := None; f_max_price := None;
     f_search := Some search |}.

(** Two products; no name or description contains the text [a%b]. *)
Definition gadgets : database :=
  set_products empty_database
    [sample_product 1 "iPhone 13" 800 None;
     sample_product 2 "Galaxy Tab" 300 None].





From Stdlib Require Import Lqa.

(** The connection holds no uncommitted write: what it sees is what is
    committed. *)
Definition settled (s : session) : Prop := pending s = durable s.

(** The constraints of the schema that the methods can touch: primary keys
    and category names are unique, prices and stock quantities are not
    negative. *)
Record schema_holds (db : database) : Prop := {
  sh_keys : primary_keys_unique db;
  sh_names : NoDup (map c_name (categories db));
  sh_products : forall p, In p (products db) ->
                          (0 <= p_price p)%Q /\ 0 <= p_stock_quantity p }.

(** A statement keeps the constraints of the schema. *)
Definition keeps_schema {A : Type} (stmt : statement A) : Prop :=
  forall db a db', schema_holds db -> stmt db = Done a db' -> schema_holds db'.

(** A method body keeps them on the committed and on the pending content. *)
Definition keeps_session {A : Type} (m : M A) : Prop :=
  forall s, schema_holds (durable s) -> schema_holds (pending s) ->
            schema_holds (durable (snd (m s)))
            /\ schema_holds (pending (snd (m s))).

(** A search value without the LIKE wildcards [%] and [_]. *)
Definition plain_char (c : ascii) : bool :=
  negb (Ascii.eqb c "%" || Ascii.eqb c "_").

Definition plain (search : string) : bool :=
  forallb plain_char (list_ascii_of_string search).

(** The update of [demonstrate_system]:
    [{'price': 749.99, 'stock_quantity': 8}]. *)
Definition demo_update : product_update :=
  {| u_name := None; u_description := None;
     u_price := Some (Some (PyFloat (74999 # 100)));
     u_stock_quantity := Some (Some 8); u_category_id := None |}.

(** The product at a given position carries the new price of an increase
    when it belongs to the category, and is unchanged otherwise. *)
Definition repriced (category_id : Z) (increase_percent : pynum)
           (p p' : product) : Prop :=
  p_product_id p' = p_product_id p /\ p_name p' = p_name p
  /\ p_description p' = p_description p
  /\ p_stock_quantity p' = p_stock_quantity p
  /\ p_category_id p' = p_category_id p
  /\ p_created_at p' = p_created_at p
  /\ (p_category_id p = Some category_id ->
      p_price p' = increased_price (p_price p) increase_percent)
  /\ (p_category_id p <> Some category_id -> p_price p' = p_price p).



(** Row [a] may stand before row [b] in the popular-products result: it sold
    more units, or as many and earned at least as much; NULL is below every
    value. *)
Definition more_popular (a b : popular_row) : Prop :=
  sql_compare_Z (pp_total_sold a) (pp_total_sold b) = Gt
  \/ (sql_compare_Z (pp_total_sold a) (pp_total_sold b) = Eq
      /\ sql_compare_Q (pp_total_revenue a) (pp_total_revenue b) <> Lt).

(** The row of the popular-products result for product [p], computed from
    the product alone: its category is the first one carrying the
    product's category identifier, and its totals run over every order item
    that refers to the product. *)
Definition items_of (db : database) (p : product) : list order_item :=
  filter (fun oi => p_product_id p =? oi_product_id oi) (order_items db).

Definition category_of (db : database) (p : product) : option category :=
  find (fun c => sql_eq_opt (p_category_id p) (c_category_id c))
       (categories db).

Definition popular_row_of (db : database) (p : product) : popular_row :=
  {| pp_product_id := p_product_id p;
     pp_name := p_name p;
     pp_price := p_price p;
     pp_category_name := option_map c_name (category_of db p);
     pp_total_sold := sql_sum_Z (map oi_quantity (items_of db p));
     pp_total_revenue := sql_sum_Q (map oi_subtotal (items_of db p)) |}.

(** The rows of the popular-products join for a list of products. *)
Definition popular_rows (db : database) (ps : list product)
  : list popular_joined :=
  left_join
    (fun x c => sql_eq_opt (p_category_id (fst (fst x))) (c_category_id c))
    (left_join
       (fun poi o => match snd poi with
                     | Some oi => (oi_order_id oi =? o_order_id o)
                                  && negb (is_cancelled (o_status o))
                     | None => false
                     end)
       (left_join (fun p oi => p_product_id p =? oi_product_id oi)
                  ps (order_items db))
       (orders db))
    (categories db).


(** ** The wildcards of LIKE, as a relation *)

(** [instance_of pattern text]: the text arises from the pattern by putting
    any run of characters for each [%] and any one character for each [_],
    every other character standing for itself up to the case of ASCII
    letters. *)
Inductive instance_of : list ascii -> list ascii -> Prop :=
| instance_nil : instance_of [] []
| instance_percent (p t u : list ascii) :
    instance_of p u -> instance_of ("%"%char :: p) (t ++ u)
| instance_underscore (p : list ascii) (c : ascii) (t : list ascii) :
    instance_of p t -> instance_of ("_"%char :: p) (c :: t)
| instance_char (a c : ascii) (p t : list ascii) :
    a <> "%"%char -> a <> "_"%char -> lower a = lower c ->
    instance_of p t -> instance_of (a :: p) (c :: t).

(** Some part of the text is an instance of the search value. *)
Definition occurs_as_pattern (search text : string) : Prop :=
  exists x t z,
    list_ascii_of_string text = x ++ t ++ z
    /\ instance_of (list_ascii_of_string search) t.

(** The instance of a pattern that drops every [%] and puts the letter [a]
    for every [_]. *)
Fixpoint fill (pattern : list ascii) : list ascii :=
  match pattern with
  | [] => []
  | c :: pattern' =>
      if Ascii.eqb c "%" then fill pattern'
      else (if Ascii.eqb c "_" then "a"%char else c) :: fill pattern'
  end.

Definition filled (search : string) : string :=
  string_of_list_ascii (fill (list_ascii_of_string search)).

(** * Properties *)

(** ** delete_product *)

Lemma count_order_items_pos (pid : Z) (db : database) :
  0 < count_order_items pid db <->
  exists oi, In oi (order_items db) /\ oi_product_id oi = pid.
Proof.
  unfold count_order_items. split.
  - intros H.
    destruct (filter (fun oi => oi_product_id oi =? pid) (order_items db))
      as [|oi l] eqn:E; [simpl in H; lia|].
    assert (Hin : In oi (filter (fun oi => oi_product_id oi =? pid)
                                (order_items db)))
      by (rewrite E; left; reflexivity).
    apply filter_In in Hin. destruct Hin as [Hin Hid].
    exists oi. split; [assumption | now apply Z.eqb_eq].
  - intros [oi [Hin Hid]].
    assert (Hf : In oi (filter (fun oi => oi_product_id oi =? pid)
                               (order_items db))).
    { apply filter_In. split; [assumption | now apply Z.eqb_eq]. }
    destruct (filter (fun oi => oi_product_id oi =? pid) (order_items db));
      [contradiction | simpl; lia].
Qed.

(** C6.  For an existing product [pid] and a working engine:
    if some order item references the product, [delete_product] returns
    [False] after logging the refusal, without having issued a DELETE (the
    connection's pending content and the committed content are the database
    as it was); if no order item references it, [delete_product] returns
    [True] and the committed [products] table is the old one without the
    rows of that id, every other table being unchanged. *)
Theorem delete_product_guarded (now : string) (db : database) (pid : Z) :
  (exists p, In p (products db) /\ p_product_id p = pid) ->
  let r := delete_product pid (connect Healthy now db) in
  ((exists oi, In oi (order_items db) /\ oi_product_id oi = pid) ->
   fst r = Returned false
   /\ pending (snd r) = db /\ durable (snd r) = db
   /\ journal (snd r) = [(WARNING, DeleteRefused pid)])
  /\
  ((forall oi, In oi (order_items db) -> oi_product_id oi <> pid) ->
   fst r = Returned true
   /\ (forall p, In p (products (durable (snd r))) <->
                 In p (products db) /\ p_product_id p <> pid)
   /\ durable (snd r) = set_products db (products (durable (snd r)))).
Proof.
  intros _ r. subst r.
  unfold delete_product, try_except, with_connection, bind, execute, select.
  cbn [connect engine_state pending].
  split.
  - intros Hrefs. apply count_order_items_pos in Hrefs.
    apply Z.gtb_lt in Hrefs. rewrite Hrefs. cbn. auto.
  - intros Hfree.
    assert (Hzero : (count_order_items pid db >? 0) = false).
    { destruct (count_order_items pid db >? 0) eqn:E; [|reflexivity].
      apply Z.gtb_lt, count_order_items_pos in E.
      destruct E as [oi [Hin Hid]]. now apply Hfree in Hin. }
    rewrite Hzero. cbn. split; [reflexivity|]. split; [|reflexivity].
    intros p. rewrite filter_In. split; intros [Hin Hid]; split; try assumption.
    + intros Heq. rewrite Heq, Z.eqb_refl in Hid. discriminate.
    + apply Z.eqb_neq in Hid. now rewrite Hid.
Qed.

(** In the sample shop product 4 is referenced by order items and stays,
    product 5 is referenced by none and goes. *)
Lemma delete_product_guarded_witness :
  (fst (delete_product 4 (connect Healthy timestamp shop)) = Returned false
   /\ durable (snd (delete_product 4 (connect Healthy timestamp shop))) = shop)
  /\
  (fst (delete_product 5 (connect Healthy timestamp shop)) = Returned true
   /\ map p_product_id
          (products (durable (snd (delete_product 5
                                     (connect Healthy timestamp shop)))))
      = [1; 2; 3; 4]).
Proof.
  split.
  - assert (Hex : exists p, In p (products shop) /\ p_product_id p = 4).
    { exists (sample_product 4 "Crime and Punishment" 20 (Some 2)).
      split; [simpl; tauto | reflexivity]. }
    destruct (delete_product_guarded timestamp shop 4 Hex) as [Hrefused _].
    destruct Hrefused as (Hret & _ & Hdur & _).
    + exists (sample_item 3 2 4 5 20). split; [simpl; tauto | reflexivity].
    + split; assumption.
  - assert (Hex : exists p, In p (products shop) /\ p_product_id p = 5).
    { exists (sample_product 5 "Gift card" 10 None).
      split; [simpl; tauto | reflexivity]. }
    destruct (delete_product_guarded timestamp shop 5 Hex) as [_ Hdeleted].
    destruct Hdeleted as (Hret & _ & _).
    + intros oi Hin. simpl in Hin.
      repeat (destruct Hin as [<- | Hin]; [discriminate|]). contradiction.
    + split; [assumption | reflexivity].
Defined.

(** ** truncate_table *)

Lemma allowed_tables_spec (name : string) :
  existsb (String.eqb name) allowed_tables = true <-> In name allowed_tables.
Proof.
  rewrite existsb_exists. split.
  - intros [x [Hin Heq]]. apply String.eqb_eq in Heq. now subst.
  - intros Hin. exists name. split; [assumption | apply String.eqb_refl].
Qed.

Lemma sequence_of_forget (name : string) (seq : list (string * Z)) :
  sequence_of name (forget_sequence name seq) = 0.
Proof.
  unfold sequence_of, forget_sequence.
  destruct (find (fun r => String.eqb (fst r) name)
                 (filter (fun r => negb (String.eqb (fst r) name)) seq))
    as [r|] eqn:E; [|reflexivity].
  apply find_some in E. destruct E as [Hin Heq].
  apply filter_In in Hin. destruct Hin as [_ Hneq].
  rewrite Heq in Hneq. discriminate.
Qed.

(** C9.  With a working engine [truncate_table] returns [True] exactly for
    the five whitelisted names.  For such a name the committed table is
    empty and its [sqlite_sequence] row is gone, so that the next
    AUTOINCREMENT rowid of the table is 1 again ([create_category] and
    [create_product] on the truncated table return 1), and the other four
    tables are as before.  For any other name it returns [False], logs the
    rejection and leaves the database as it was. *)
Theorem truncate_table_whitelisted (now : string) (db : database)
        (name : string) :
  let r := truncate_table name (connect Healthy now db) in
  let db' := durable (snd r) in
  (fst r = Returned true <-> In name allowed_tables)
  /\ (In name allowed_tables ->
      row_ids name db' = []
      /\ sequence_of name (sqlite_sequence db') = 0
      /\ next_rowid name (row_ids name db') db' = 1
      /\ (name = "categories"%string ->
          forall n d now',
            fst (create_category n d (connect Healthy now' db')) = Returned 1)
      /\ (name = "products"%string ->
          forall product now',
            has_required_fields product = true ->
            (exists v, insert_parameters product = Returned v
                       /\ product_constraints v = true) ->
            fst (create_product product (connect Healthy now' db')) = Returned 1)
      /\ (name <> "products"%string -> products db' = products db)
      /\ (name <> "categories"%string -> categories db' = categories db)
      /\ (name <> "customers"%string -> customers db' = customers db)
      /\ (name <> "orders"%string -> orders db' = orders db)
      /\ (name <> "order_items"%string -> order_items db' = order_items db))
  /\ (~ In name allowed_tables ->
      fst r = Returned false
      /\ db' = db /\ pending (snd r) = db
      /\ journal (snd r) = [(ERROR, TableNotAllowed name)]).
Proof.
  intros r db'. subst db' r. unfold truncate_table.
  destruct (existsb (String.eqb name) allowed_tables) eqn:Hallowed.
  - apply allowed_tables_spec in Hallowed.
    assert (Hcase := Hallowed). simpl in Hcase.
    split; [|split].
    + split; [intros _; assumption | intros _].
      repeat (destruct Hcase as [<- | Hcase]; [reflexivity|]). contradiction.
    + intros _.
      repeat (destruct Hcase as [<- | Hcase];
              [ cbn; unfold next_rowid; cbn;
                fold (forget_sequence "products" (sqlite_sequence db));
                fold (forget_sequence "categories" (sqlite_sequence db));
                fold (forget_sequence "customers" (sqlite_sequence db));
                fold (forget_sequence "orders" (sqlite_sequence db));
                fold (forget_sequence "order_items" (sqlite_sequence db));
                rewrite ?sequence_of_forget;
                repeat split; try congruence; try discriminate;
                try (intros; reflexivity)
              | ]); try contradiction.
      intros _ product now' Hreq [v [Hv Hc]].
      unfold create_product. rewrite Hreq. cbn [negb].
      unfold try_except, with_connection, bind, lift, execute, current_timestamp.
      rewrite Hv. cbn [connect engine_state pending clock].
      unfold insert_product. rewrite Hc.
      unfold product_constraints in Hc.
      destruct (v_name v), (v_price v), (v_stock_quantity v);
        try discriminate.
      cbn. unfold next_rowid. cbn. rewrite sequence_of_forget. reflexivity.
    + intros Hnot. contradiction.
  - assert (Hnot : ~ In name allowed_tables).
    { intros Hin. apply allowed_tables_spec in Hin. congruence. }
    split; [|split].
    + split; [discriminate | intros Hin; contradiction].
    + intros Hin. contradiction.
    + intros _. cbn. auto.
Qed.

(** Truncating [orders] in the sample shop, and the rejected name of the
    specification's example. *)
Lemma truncate_table_whitelisted_witness :
  (row_ids "orders" (durable (snd (truncate_table "orders"
                                     (connect Healthy timestamp shop)))) = []
   /\ next_rowid "orders" [] (durable (snd (truncate_table "orders"
                                     (connect Healthy timestamp shop)))) = 1)
  /\ fst (truncate_table "not_a_table" (connect Healthy timestamp shop))
     = Returned false
  /\ durable (snd (truncate_table "not_a_table"
                     (connect Healthy timestamp shop))) = shop.
Proof.
  destruct (truncate_table_whitelisted timestamp shop "orders")
    as (_ & Hin & _).
  destruct (truncate_table_whitelisted timestamp shop "not_a_table")
    as (_ & _ & Hout).
  split.
  - destruct Hin as (Hrows & _ & Hnext & _).
    + simpl. tauto.
    + rewrite Hrows in Hnext. split; [exact Hrows | exact Hnext].
  - destruct Hout as (Hret & Hdb & _).
    + simpl. intros H.
      repeat (destruct H as [H | H]; [discriminate|]). contradiction.
    + split; assumption.
Defined.

(** ** bulk_update_prices *)

Lemma sql_round2_compat (x y : Q) : (x == y)%Q -> sql_round2 x = sql_round2 y.
Proof.
  intros Hxy. unfold sql_round2.
  assert (Hle : Qle_bool 0 x = Qle_bool 0 y) by now rewrite Hxy.
  assert (Hup : Qfloor (x * 100 + (1 # 2)) = Qfloor (y * 100 + (1 # 2)))
    by now rewrite Hxy.
  assert (Hdown : Qfloor (- (x * 100) + (1 # 2))
                  = Qfloor (- (y * 100) + (1 # 2))) by now rewrite Hxy.
  now rewrite Hle, Hup, Hdown.
Qed.

(** What the integer division does: an [int] percentage strictly between
    -100 and 100 changes no price beyond rounding it. *)
Lemma increased_price_small_int (price : Q) (z : Z) :
  Z.abs z < 100 -> increased_price price (PyInt z) = sql_round2 price.
Proof.
  intros Hsmall. unfold increased_price, sql_div_100.
  assert (Hq : Z.quot z 100 = 0) by (apply Z.quot_small_iff; lia).
  rewrite Hq. apply sql_round2_compat. ring.
Qed.

(** C3.  [bulk_update_prices(2, 10)], called with the [int] 10 as
    [demonstrate_system] does, on a category holding one product priced
    20.00: SQLite evaluates [10 / 100] as an integer division, the factor is
    1 and the price is still 20 after one and after two calls.  Only with
    the [float] 10.0 does the price become 22 and then 24.2. *)
Theorem bulk_update_prices_int_percent :
  let run percent db :=
    bulk_update_prices 2 percent (connect Healthy timestamp db) in
  let prices r := map p_price (products (durable (snd r))) in
  let once := run (PyInt 10) one_book in
  let twice := run (PyInt 10) (durable (snd once)) in
  let once_f := run (PyFloat 10) one_book in
  let twice_f := run (PyFloat 10) (durable (snd once_f)) in
  (fst once = Returned true /\ prices once = [20%Q])
  /\ (fst twice = Returned true /\ prices twice = [20%Q])
  /\ prices once_f = [22%Q]
  /\ prices twice_f = [(121 # 5)%Q].
Proof.
  vm_compute. repeat split; reflexivity.
Qed.



(** ** batch_create_products *)

Lemma bind_raised {A B : Type} (m : M A) (k : A -> M B) (s s' : session)
      (e : exn) :
  m s = (Raised e, s') -> bind m k s = (Raised e, s').
Proof. intros H. unfold bind. now rewrite H. Qed.

Lemma insert_parameters_raises (d : product_data) (e : exn) :
  insert_parameters d = Raised e -> exists k, e = KeyError k.
Proof.
  unfold insert_parameters, subscript.
  destruct (d_name d), (d_price d), (d_category_id d);
    cbn; intros H; inversion H; eauto.
Qed.

Lemma insert_product_constraints (v : product_values) (t : string)
      (db : database) :
  product_constraints v = false -> insert_product v t db = Failed IntegrityError.
Proof.
  intros Hc. unfold insert_product. rewrite Hc.
  now destruct (v_name v), (v_price v), (v_stock_quantity v).
Qed.

(** One pass of the loop body never touches the committed content or the
    log; it raises a [KeyError] or an [sqlite3.Error] when the entry fails
    insertion. *)
Lemma insert_one_step (d : product_data) (s : session) :
  durable (snd (insert_one d s)) = durable s
  /\ journal (snd (insert_one d s)) = journal s
  /\ (forall e, fst (insert_one d s) = Raised e ->
                (exists k, e = KeyError k) \/ sqlite3_Error e = true)
  /\ (insertion_fails d -> exists e, fst (insert_one d s) = Raised e).
Proof.
  unfold insert_one, bind, lift, current_timestamp, execute, ret.
  unfold insertion_fails.
  destruct (insert_parameters d) as [v|e0] eqn:Hparams.
  - destruct (engine_state s).
    + destruct (insert_product v (clock s) (pending s)) as [id db'|err] eqn:Hins.
      * cbn. repeat split; try discriminate.
        intros [[k Hk] | [v' [Hv' Hc]]]; [discriminate|].
        inversion Hv'; subst v'.
        rewrite (insert_product_constraints _ _ _ Hc) in Hins. discriminate.
      * cbn. repeat split.
        -- intros e He. inversion He. right. reflexivity.
        -- intros _. eauto.
    + cbn. repeat split.
      * intros e He. inversion He. right. reflexivity.
      * intros _. eauto.
  - cbn. repeat split.
    + intros e He. inversion He; subst. left.
      eapply insert_parameters_raises; eassumption.
    + intros _. eauto.
Qed.

Lemma for_each_cons {A : Type} (f : A -> M unit) (x : A) (l : list A)
      (s : session) :
  for_each f (x :: l) s
  = match f x s with
    | (Returned _, s') => for_each f l s'
    | (Raised e, s') => (Raised e, s')
    end.
Proof. reflexivity. Qed.

Lemma for_each_insert_raises (ps : list product_data) (d : product_data) :
  In d ps -> insertion_fails d ->
  forall s,
    durable (snd (for_each insert_one ps s)) = durable s
    /\ journal (snd (for_each insert_one ps s)) = journal s
    /\ exists e, fst (for_each insert_one ps s) = Raised e
                 /\ ((exists k, e = KeyError k) \/ sqlite3_Error e = true).
Proof.
  intros Hin Hfails. induction ps as [|x ps IH]; [contradiction|].
  intros s. rewrite for_each_cons.
  destruct (insert_one_step x s) as (Hdur & Hlog & Hexn & Hraise).
  destruct (insert_one x s) as [[[]|e] s1] eqn:Hstep; cbn [fst snd] in *.
  - destruct Hin as [-> | Hin].
    + destruct (Hraise Hfails) as [e He]. discriminate.
    + destruct (IH Hin s1) as (Hd & Hj & e & He & Hkind).
      rewrite Hd, Hj, Hdur, Hlog. eauto 6.
  - repeat split; try assumption. exists e. split; [reflexivity|].
    apply Hexn. reflexivity.
Qed.

(** C5.  Whatever the engine's condition and the database, if some entry
    of the batch fails insertion, [batch_create_products] reports failure
    (it returns [False] when the engine rejects the row, and lets the
    [KeyError] of an absent required key through) and the committed
    database is the one before the call; the connection holds no pending
    insertion either. *)
Theorem batch_create_products_atomic (e : engine) (now : string)
        (db : database) (ps : list product_data) (d : product_data) :
  In d ps -> insertion_fails d ->
  let r := batch_create_products ps (connect e now db) in
  (fst r = Returned false \/ exists k, fst r = Raised (KeyError k))
  /\ durable (snd r) = db
  /\ pending (snd r) = db.
Proof.
  intros Hin Hfails r. subst r.
  destruct (for_each_insert_raises ps d Hin Hfails (connect e now db))
    as (Hdur & Hlog & ex & Hex & Hkind).
  destruct (for_each insert_one ps (connect e now db)) as [o s1] eqn:Hloop.
  cbn [fst snd] in *. subst o. cbn [connect durable] in Hdur.
  unfold batch_create_products, try_except, with_connection.
  rewrite (bind_raised _ _ _ _ _ Hloop).
  destruct Hkind as [[k ->] | Hsql].
  - cbn. rewrite Hdur. eauto.
  - rewrite Hsql. cbn. rewrite Hdur. auto.
Qed.

(** A batch of four whose third entry lacks [name], and one whose third
    entry has a negative price. *)
Lemma batch_create_products_atomic_witness :
  let good := sample_data (Some (Some "Pen"%string)) (Some (Some (PyInt 2))) in
  let no_name := sample_data None (Some (Some (PyInt 2))) in
  let negative :=
    sample_data (Some (Some "Pen"%string)) (Some (Some (PyInt (-2)))) in
  (fst (batch_create_products [good; good; no_name; good]
                              (connect Healthy timestamp shop))
   = Raised (KeyError "name")
   /\ durable (snd (batch_create_products [good; good; no_name; good]
                                          (connect Healthy timestamp shop)))
      = shop)
  /\ (fst (batch_create_products [good; good; negative; good]
                                 (connect Healthy timestamp shop))
      = Returned false
      /\ durable (snd (batch_create_products [good; good; negative; good]
                                             (connect Healthy timestamp shop)))
         = shop).
Proof.
  intros good no_name negative. split.
  - destruct (batch_create_products_atomic
                Healthy timestamp shop [good; good; no_name; good] no_name)
      as (_ & Hdur & _).
    + simpl. tauto.
    + left. exists "name"%string. reflexivity.
    + split; [reflexivity | exact Hdur].
  - destruct (batch_create_products_atomic
                Healthy timestamp shop [good; good; negative; good] negative)
      as (_ & Hdur & _).
    + simpl. tauto.
    + right. eexists. split; reflexivity.
    + split; [reflexivity | exact Hdur].
Defined.

(** ** Failure reporting *)






(** ** The search filter of get_products *)

Lemma list_ascii_of_string_app (s t : string) :
  list_ascii_of_string (s ++ t)
  = list_ascii_of_string s ++ list_ascii_of_string t.
Proof.
  induction s as [|c s IH]; [reflexivity|]. cbn. now rewrite IH.
Qed.

Lemma like_percent_unfold (p t : list ascii) :
  like_chars ("%"%char :: p) t
  = like_chars p t
    || match t with
       | [] => false
       | _ :: t' => like_chars ("%"%char :: p) t'
       end.
Proof. destruct t; reflexivity. Qed.

Lemma like_percent_here (p t : list ascii) :
  like_chars p t = true -> like_chars ("%"%char :: p) t = true.
Proof. intros H. rewrite like_percent_unfold, H. reflexivity. Qed.

Lemma like_percent_skip (p x t : list ascii) :
  like_chars ("%"%char :: p) t = true ->
  like_chars ("%"%char :: p) (x ++ t) = true.
Proof.
  intros H. induction x as [|c x IH]; [exact H|].
  cbn [app]. rewrite like_percent_unfold, IH. apply orb_true_r.
Qed.

Lemma like_percent_all (t : list ascii) : like_chars ["%"%char] t = true.
Proof.
  induction t as [|c t IH]; [reflexivity|].
  rewrite like_percent_unfold, IH. apply orb_true_r.
Qed.

Lemma like_char_unfold (c : ascii) (p t : list ascii) :
  Ascii.eqb c "%" = false ->
  like_chars (c :: p) t
  = match t with
    | [] => false
    | d :: t' => (Ascii.eqb c "_" || Ascii.eqb (lower c) (lower d))
                 && like_chars p t'
    end.
Proof. intros E. cbn [like_chars]. rewrite E. reflexivity. Qed.

(** [like_chars] decides [instance_of]. *)
Lemma like_chars_instance (p t : list ascii) :
  like_chars p t = true <-> instance_of p t.
Proof.
  split.
  - revert t. induction p as [|c p IH]; intros t H.
    + destruct t; [constructor | discriminate].
    + destruct (Ascii.eqb c "%") eqn:Ec.
      * apply Ascii.eqb_eq in Ec. subst c.
        induction t as [|d t IHt]; rewrite like_percent_unfold in H.
        -- rewrite orb_false_r in H.
           exact (instance_percent p [] [] (IH _ H)).
        -- apply orb_true_iff in H. destruct H as [H | H].
           ++ exact (instance_percent p [] (d :: t) (IH _ H)).
           ++ specialize (IHt H).
              inversion IHt as [|p0 t0 u Hu|p0 c0 t0 Ht0 Hp0|
                                a c0 p0 t0 Ha]; subst.
              ** exact (instance_percent p (d :: t0) u Hu).
              ** congruence.
      * rewrite like_char_unfold in H by assumption.
        destruct t as [|d t]; [discriminate|].
        apply andb_true_iff in H. destruct H as [Hc Ht].
        destruct (Ascii.eqb c "_") eqn:Eu.
        -- apply Ascii.eqb_eq in Eu. subst c.
           apply instance_underscore. now apply IH.
        -- cbn [orb] in Hc. apply Ascii.eqb_eq in Hc.
           apply instance_char; [| |assumption|now apply IH].
           ++ now apply Ascii.eqb_neq.
           ++ now apply Ascii.eqb_neq.
  - induction 1 as [|p t u Hu IH|p c t Ht IH|a c p t Ha Hb Hc Ht IH].
    + reflexivity.
    + now apply like_percent_skip, like_percent_here.
    + rewrite like_char_unfold by reflexivity. now rewrite IH.
    + rewrite like_char_unfold by now apply Ascii.eqb_neq.
      rewrite IH, Hc, Ascii.eqb_refl. now rewrite orb_true_r.
Qed.

Lemma instance_suffix (s t : list ascii) :
  instance_of s t -> forall z, instance_of (s ++ ["%"%char]) (t ++ z).
Proof.
  induction 1 as [|p t u Hu IH|p c t Ht IH|a c p t Ha Hb Hc Ht IH];
    intros z; cbn [app].
  - rewrite <- (app_nil_r z). apply instance_percent. constructor.
  - rewrite <- app_assoc. apply instance_percent, IH.
  - apply instance_underscore, IH.
  - apply instance_char; auto.
Qed.

Lemma instance_suffix_inv (s u : list ascii) :
  instance_of (s ++ ["%"%char]) u ->
  exists t z, u = t ++ z /\ instance_of s t.
Proof.
  revert u. induction s as [|a s IH]; intros u H; cbn [app] in H.
  - exists [], u. split; [reflexivity | constructor].
  - inversion H as [|p0 t0 u0 Hu0|p0 c0 t0 Ht0|a0 c0 p0 t0 Ha Hb Hc Ht0];
      subst.
    + destruct (IH _ Hu0) as (t & z & -> & Ht).
      exists (t0 ++ t), z. split; [apply app_assoc|].
      now apply instance_percent.
    + destruct (IH _ Ht0) as (t & z & -> & Ht).
      exists (c0 :: t), z. split; [reflexivity|].
      now apply instance_underscore.
    + destruct (IH _ Ht0) as (t & z & -> & Ht).
      exists (c0 :: t), z. split; [reflexivity|].
      now apply instance_char.
Qed.

(** What [LIKE '%' + search + '%'] accepts. *)
Lemma sql_like_search (text search : string) :
  sql_like text ("%" ++ search ++ "%") = true <-> occurs_as_pattern search text.
Proof.
  unfold sql_like, occurs_as_pattern.
  change ("%" ++ search ++ "%")%string
    with (String "%" (search ++ "%"))%string.
  cbn [list_ascii_of_string]. rewrite list_ascii_of_string_app.
  change (list_ascii_of_string "%") with ["%"%char].
  rewrite like_chars_instance. split.
  - intros H.
    inversion H as [|p0 t0 u0 Hu0|p0 c0 t0 Ht0|a0 c0 p0 t0 Ha]; subst;
      [|congruence].
    destruct (instance_suffix_inv _ _ Hu0) as (t & z & -> & Ht).
    exists t0, t, z. split; [reflexivity | exact Ht].
  - intros (x & t & z & -> & Ht).
    apply instance_percent. now apply instance_suffix.
Qed.

Lemma instance_fill (s : list ascii) : instance_of s (fill s).
Proof.
  induction s as [|c s IH]; cbn [fill]; [constructor|].
  destruct (Ascii.eqb c "%") eqn:Ec.
  - apply Ascii.eqb_eq in Ec. subst c.
    exact (instance_percent s [] (fill s) IH).
  - destruct (Ascii.eqb c "_") eqn:Eu.
    + apply Ascii.eqb_eq in Eu. subst c. now apply instance_underscore.
    + apply instance_char; auto; now apply Ascii.eqb_neq.
Qed.

Lemma fill_length (s : list ascii) :
  (List.length (fill s) <= List.length s)%nat.
Proof.
  induction s as [|c s IH]; cbn [fill List.length]; [lia|].
  destruct (Ascii.eqb c "%"); cbn [List.length]; lia.
Qed.

Lemma starts_with_length (s t : list ascii) :
  starts_with s t = true -> (List.length s <= List.length t)%nat.
Proof.
  revert t. induction s as [|c s IH]; intros [|d t] H; cbn in *;
    try lia; try discriminate.
  apply andb_true_iff in H. destruct H as [_ H]. specialize (IH _ H). lia.
Qed.

(** In a text no longer than the needle, the needle can only occur at the
    start. *)
Lemma contains_chars_short (s t : list ascii) :
  contains_chars s t = true -> (List.length t <= List.length s)%nat ->
  starts_with s t = true.
Proof.
  assert (Hlen : forall u, contains_chars s u = true ->
                           (List.length s <= List.length u)%nat).
  { induction u as [|d u IHu]; cbn [contains_chars]; intros H;
      apply orb_true_iff in H; destruct H as [H | H].
    - now apply starts_with_length.
    - discriminate.
    - now apply starts_with_length.
    - specialize (IHu H). cbn [List.length]. lia. }
  destruct t as [|d t]; cbn [contains_chars]; intros H Hshort;
    apply orb_true_iff in H; destruct H as [H | H]; try assumption;
    try discriminate.
  apply Hlen in H. cbn [List.length] in Hshort. lia.
Qed.

Lemma starts_with_fill (s : list ascii) :
  starts_with s (fill s) = true -> forallb plain_char s = true.
Proof.
  induction s as [|c s IH]; [reflexivity|].
  cbn [fill forallb]. unfold plain_char at 1.
  destruct (Ascii.eqb c "%") eqn:Ec.
  - intros H. apply starts_with_length in H.
    pose proof (fill_length s). cbn [List.length] in H. lia.
  - destruct (Ascii.eqb c "_") eqn:Eu.
    + apply Ascii.eqb_eq in Eu. subst c. cbn. discriminate.
    + cbn [starts_with orb negb andb]. intros H.
      apply andb_true_iff in H. destruct H as [_ H]. now apply IH.
Qed.

(** The filled search value does not contain the search value when the
    latter has a wildcard. *)
Lemma filled_differs (search : string) :
  plain search = false -> contains_substring (filled search) search = false.
Proof.
  unfold plain, contains_substring, filled. intros Hplain.
  rewrite list_ascii_of_string_of_list_ascii.
  destruct (contains_chars (list_ascii_of_string search)
                           (fill (list_ascii_of_string search))) eqn:H;
    [|reflexivity].
  apply contains_chars_short in H; [|apply fill_length].
  apply starts_with_fill in H. congruence.
Qed.

(** C10.  The search value is placed between two [%] unescaped, so its own
    [%] and [_] act as wildcards.  For every search value, a product passes
    the search filter exactly when some part of its name or of its
    description is an instance of the value, each [%] standing for any run
    of characters and each [_] for any one character.  Hence every search
    value with a [%] or a [_] accepts a name that does not contain it: the
    value with each [%] dropped and each [_] replaced by a letter.  With the
    search value [a%b] the filter accepts every product whose name has an
    [a] somewhere before a [b], and with [a_b] every name with exactly one
    character between them; in the [gadgets] catalogue [get_products] with
    search [a%b] returns "Galaxy Tab", a name (and description) that do not
    contain the text [a%b]. *)
Theorem search_wildcards_unescaped :
  (forall (search : string) (p : product),
      products_where (search_for search) p = true
      <-> occurs_as_pattern search (p_name p)
          \/ exists d, p_description p = Some d /\ occurs_as_pattern search d)
  /\ (forall (search : string) (p : product),
         plain search = false ->
         p_name p = filled search ->
         products_where (search_for search) p = true
         /\ contains_substring (p_name p) search = false)
  /\ (forall (p : product) (x y z : string),
      p_name p = (x ++ "a" ++ y ++ "b" ++ z)%string ->
      products_where (search_for "a%b") p = true)
  /\ (forall (p : product) (x z : string) (c : ascii),
         p_name p = (x ++ "a" ++ String c ("b" ++ z))%string ->
         products_where (search_for "a_b") p = true)
  /\ (fst (get_products (search_for "a%b") 1 10
                        (connect Healthy timestamp gadgets))
      = Returned [{| pr_product := sample_product 2 "Galaxy Tab" 300 None;
                     pr_category_name := None |}]
      /\ contains_substring "Galaxy Tab" "a%b" = false
      /\ contains_substring "" "a%b" = false).
Proof.
  assert (Hfilter : forall search p,
             products_where (search_for search) p = true
             <-> occurs_as_pattern search (p_name p)
                 \/ exists d, p_description p = Some d
                              /\ occurs_as_pattern search d).
  { intros search p. unfold products_where, search_for.
    cbn [f_category_id f_min_price f_max_price f_search andb].
    rewrite orb_true_iff, sql_like_search.
    destruct (p_description p) as [d|]; cbn [sql_like_opt].
    - rewrite sql_like_search. split; intros [H | H]; auto.
      + right. exists d. auto.
      + destruct H as (d' & Hd' & H). inversion Hd'; subst. auto.
    - split; intros [H | H]; auto; [discriminate|].
      destruct H as (d' & Hd' & _). discriminate. }
  split; [exact Hfilter|]. split; [|split; [|split]].
  - intros search p Hplain Hname. split.
    + apply Hfilter. left. rewrite Hname.
      exists [], (fill (list_ascii_of_string search)), [].
      split; [|apply instance_fill].
      unfold filled. rewrite list_ascii_of_string_of_list_ascii.
      cbn [app]. now rewrite app_nil_r.
    + rewrite Hname. now apply filled_differs.
  - intros p x y z Hname.
    unfold products_where, search_for.
    cbn [f_category_id f_min_price f_max_price f_search andb].
    apply orb_true_iff. left. unfold sql_like. rewrite Hname.
    change (list_ascii_of_string ("%" ++ "a%b" ++ "%"))
      with ["%"; "a"; "%"; "b"; "%"]%char.
    rewrite !list_ascii_of_string_app. cbn [list_ascii_of_string app].
    apply like_percent_skip, like_percent_here.
    change (like_chars ["%"; "b"; "%"]%char
                       (list_ascii_of_string y
                        ++ "b"%char :: list_ascii_of_string z) = true).
    apply like_percent_skip, like_percent_here.
    change (like_chars ["%"%char] (list_ascii_of_string z) = true).
    apply like_percent_all.
  - intros p x z c Hname.
    unfold products_where, search_for.
    cbn [f_category_id f_min_price f_max_price f_search andb].
    apply orb_true_iff. left. unfold sql_like. rewrite Hname.
    change (list_ascii_of_string ("%" ++ "a_b" ++ "%"))
      with ["%"; "a"; "_"; "b"; "%"]%char.
    rewrite !list_ascii_of_string_app. cbn [list_ascii_of_string app].
    apply like_percent_skip, like_percent_here.
    change (like_chars ["%"%char] (list_ascii_of_string z) = true).
    apply like_percent_all.
  - vm_compute. repeat split; reflexivity.
Qed.

(** The value [50%_off] accepts the name "50aoff"; a name with [a] before
    [b] and one with a single character between. *)
Lemma search_wildcards_unescaped_witness :
  products_where (search_for "50%_off")
                 (sample_product 6 "50aoff" 1 None) = true
  /\ contains_substring "50aoff" "50%_off" = false
  /\ products_where (search_for "a%b")
                    (sample_product 2 "Galaxy Tab" 300 None) = true
  /\ products_where (search_for "a_b")
                    (sample_product 7 "Slab" 1 None) = false
  /\ products_where (search_for "a_b")
                    (sample_product 8 "Cable" 1 None) = false
  /\ products_where (search_for "a_b")
                    (sample_product 9 "Rainbow" 1 None) = false
  /\ products_where (search_for "a_b")
                    (sample_product 10 "Carbon" 1 None) = true.
Proof.
  destruct search_wildcards_unescaped
    as (_ & Hfilled & Hpercent & Hunderscore & _).
  destruct (Hfilled "50%_off"%string (sample_product 6 "50aoff" 1 None)
                    eq_refl eq_refl) as [Hmatch Hliteral].
  split; [exact Hmatch|]. split; [exact Hliteral|].
  split; [|split; [|split; [|split]]].
  - apply (Hpercent _ "G" "laxy Ta" "")%string. reflexivity.
  - reflexivity.
  - reflexivity.
  - reflexivity.
  - apply (Hunderscore _ "C" "on" "r"%char)%string. reflexivity.
Defined.

(** ** get_popular_products *)

(** C1.  In a database whose only order is cancelled and holds three units
    of the only product, [get_popular_products] reports three units sold
    and a revenue of 2400: the condition on the status sits in the ON clause
    of a LEFT JOIN, which keeps the order item and only blanks the order. *)
Theorem get_popular_products_counts_cancelled :
  fst (get_popular_products 5 (connect Healthy timestamp cancelled_sale))
  = Returned [{| pp_product_id := 1; pp_name := "iPhone 13";
                 pp_price := 800; pp_category_name := None;
                 pp_total_sold := Some 3;
                 pp_total_revenue := Some 2400%Q |}]
  /\ map pj_order (popular_join cancelled_sale) = [None]
  /\ fst (get_sales_report None None (connect Healthy timestamp cancelled_sale))
     = Returned [].
Proof. vm_compute. repeat split; reflexivity. Qed.

(** ** Facts about the SQL building blocks *)

Section OrderBy.
Context {A : Type} (before : A -> A -> bool).

Lemma insert_row_perm (x : A) (l : list A) :
  Permutation (insert_row before x l) (x :: l).
Proof.
  induction l as [|y l IH]; cbn; [reflexivity|].
  destruct (before x y); [reflexivity|].
  rewrite IH. apply perm_swap.
Qed.

Lemma order_by_perm (l : list A) : Permutation (order_by before l) l.
Proof.
  induction l as [|x l IH]; cbn; [reflexivity|].
  rewrite insert_row_perm. now apply perm_skip.
Qed.

Lemma order_by_In (x : A) (l : list A) : In x (order_by before l) <-> In x l.
Proof.
  split; apply Permutation_in;
    [apply order_by_perm | symmetry; apply order_by_perm].
Qed.


Hypothesis before_total : forall a b, before a b = false -> before b a = true.

Lemma insert_row_sorted (x : A) (l : list A) :
  Sorted (fun a b => before a b = true) l ->
  Sorted (fun a b => before a b = true) (insert_row before x l).
Proof.
  induction l as [|y l IH]; intros Hs; cbn.
  - repeat constructor.
  - destruct (before x y) eqn:Hxy.
    + constructor; [assumption | constructor; exact Hxy].
    + inversion Hs as [|? ? Hl Hhd]; subst.
      constructor; [now apply IH|].
      destruct l as [|z l]; cbn.
      * constructor. now apply before_total.
      * destruct (before x z); constructor.
        -- now apply before_total.
        -- now inversion Hhd.
Qed.

Lemma order_by_sorted (l : list A) :
  Sorted (fun a b => before a b = true) (order_by before l).
Proof.
  induction l as [|x l IH]; cbn; [constructor|].
  now apply insert_row_sorted.
Qed.
End OrderBy.

Section GroupBy.
Context {A K : Type} (eqb : K -> K -> bool) (key : A -> K).
Hypothesis eqb_spec : forall a b, eqb a b = true <-> a = b.

Lemma distinct_In (k : K) (ks : list K) : In k (distinct eqb ks) <-> In k ks.
Proof.
  induction ks as [|k0 ks IH]; cbn; [tauto|].
  rewrite filter_In, IH. split.
  - intros [H | [H _]]; auto.
  - intros [H | H]; [auto|].
    destruct (eqb k k0) eqn:E.
    + left. symmetry. now apply eqb_spec.
    + right. split; [assumption | reflexivity].
Qed.

Lemma distinct_NoDup (ks : list K) : NoDup (distinct eqb ks).
Proof.
  induction ks as [|k0 ks IH]; cbn; constructor.
  - rewrite filter_In. intros [_ H].
    assert (E : eqb k0 k0 = true) by now apply eqb_spec.
    rewrite E in H. discriminate.
  - now apply NoDup_filter.
Qed.

(** Every group is the list of the rows with its key, and is not empty. *)
Lemma group_by_In (g : K * list A) (rows : list A) :
  In g (group_by eqb key rows) ->
  snd g = filter (fun r => eqb (key r) (fst g)) rows
  /\ exists j, In j rows /\ key j = fst g.
Proof.
  unfold group_by. rewrite in_map_iff. intros [k [<- Hk]].
  split; [reflexivity|]. cbn.
  apply distinct_In, in_map_iff in Hk. destruct Hk as [j [Hj Hin]]. eauto.
Qed.


End GroupBy.

Section Joins.
Context {A B : Type} (on : A -> B -> bool).





(** A LEFT JOIN keeps every left row. *)
Lemma left_join_keeps (a : A) (l : list A) (r : list B) :
  In a l -> exists ob, In (a, ob) (left_join on l r).
Proof.
  intros Ha. unfold left_join.
  destruct (filter (on a) r) as [|b m] eqn:E.
  - exists None. apply in_flat_map. exists a. split; [assumption|].
    rewrite E. now left.
  - exists (Some b). apply in_flat_map. exists a. split; [assumption|].
    rewrite E. now left.
Qed.

Lemma left_join_In (a : A) (ob : option B) (l : list A) (r : list B) :
  In (a, ob) (left_join on l r) ->
  In a l /\ match ob with
            | Some b => In b r /\ on a b = true
            | None => True
            end.
Proof.
  unfold left_join. rewrite in_flat_map. intros [a' [Ha Hin]].
  destruct (filter (on a') r) as [|b m] eqn:E.
  - destruct Hin as [Heq | []]. inversion Heq; subst. auto.
  - apply in_map_iff in Hin. destruct Hin as [b' [Heq Hb']].
    inversion Heq; subst. split; [assumption|].
    rewrite <- E in Hb'. apply filter_In in Hb'. exact Hb'.
Qed.
End Joins.

Lemma non_null_In {A : Type} (x : A) (l : list (option A)) :
  In x (non_null l) <-> In (Some x) l.
Proof.
  induction l as [|[y|] l IH]; cbn; [tauto| |].
  - rewrite IH. split; intros [H | H]; auto; left; congruence.
  - rewrite IH. split; [auto | intros [H | H]; [discriminate | assumption]].
Qed.



Lemma limit_offset_all {A : Type} (limit : Z) (rows : list A) :
  limit < 0 \/ Z.of_nat (List.length rows) <= limit ->
  limit_offset limit 0 rows = rows.
Proof.
  intros H. unfold limit_offset. cbn [Z.to_nat skipn].
  destruct (limit <? 0) eqn:E; [reflexivity|].
  apply Z.ltb_ge in E. apply firstn_all2. lia.
Qed.

(** With unique keys a lookup by key finds at most one row. *)
Lemma filter_unique_key {A : Type} (id : A -> Z) (k : Z) (l : list A) :
  NoDup (map id l) ->
  filter (fun x => k =? id x) l
  = match find (fun x => k =? id x) l with
    | Some x => [x]
    | None => []
    end.
Proof.
  induction l as [|y l IH]; cbn; [reflexivity|].
  intros Hnd. inversion Hnd as [|? ? Hnotin Hnd']; subst.
  destruct (k =? id y) eqn:E.
  - f_equal. apply Z.eqb_eq in E. subst k.
    destruct (filter (fun x => id y =? id x) l) as [|z m] eqn:F;
      [reflexivity|].
    exfalso. apply Hnotin.
    assert (Hz : In z (filter (fun x => id y =? id x) l))
      by (rewrite F; now left).
    apply filter_In in Hz. destruct Hz as [Hz Hid].
    apply Z.eqb_eq in Hid. rewrite Hid. now apply in_map.
  - now apply IH.
Qed.


(** ** get_sales_report *)

Lemma filter_nullable_key {A : Type} (id : A -> Z) (k : option Z) (l : list A) :
  NoDup (map id l) ->
  filter (fun x => sql_eq_opt k (id x)) l
  = match k with
    | Some v => match find (fun x => v =? id x) l with
                | Some x => [x]
                | None => []
                end
    | None => []
    end.
Proof.
  intros Hnd. destruct k as [v|]; cbn.
  - now apply filter_unique_key.
  - induction l as [|y l IH]; cbn; [reflexivity|].
    apply IH. now inversion Hnd.
Qed.

Section SalesReport.
Variable db : database.
Variables start_date end_date : option string.
Hypothesis keys : primary_keys_unique db.



End SalesReport.

Lemma Sorted_impl {A : Type} (R R' : A -> A -> Prop) (l : list A) :
  (forall a b, R a b -> R' a b) -> Sorted R l -> Sorted R' l.
Proof.
  intros Himpl. induction 1 as [|a l Hs IH Hhd]; constructor.
  - assumption.
  - destruct Hhd; constructor. now apply Himpl.
Qed.










Ltac distinct_keys :=
  repeat constructor; cbn; intros H;
  repeat (destruct H as [H | H]; [discriminate|]); exact H.

Lemma shop_keys : primary_keys_unique shop.
Proof. constructor; distinct_keys. Qed.


(** ** Outer joins *)


Lemma popular_join_In (db : database) (j : popular_joined) :
  In j (popular_join db) ->
  In (pj_product j) (products db)
  /\ match pj_item j with
     | Some oi => In oi (order_items db)
                  /\ oi_product_id oi = p_product_id (pj_product j)
     | None => True
     end.
Proof.
  destruct j as [[[p ooi] oo] oc]. unfold popular_join. intros H.
  apply left_join_In in H. destruct H as [H _].
  apply left_join_In in H. destruct H as [H _].
  apply left_join_In in H. destruct H as [Hp Hitem].
  split; [exact Hp|]. unfold pj_item, pj_product. cbn [fst snd].
  destruct ooi as [oi|]; [|exact I].
  destruct Hitem as [Hoi Hon]. apply Z.eqb_eq in Hon. auto.
Qed.


Lemma history_join_In (db : database) (j : history_joined) :
  In j (history_join db) ->
  In (hj_order j) (orders db)
  /\ match hj_product j with
     | Some _ => exists oi, In oi (order_items db)
                            /\ oi_order_id oi = o_order_id (hj_order j)
     | None => True
     end.
Proof.
  destruct j as [[o ooi] op]. unfold history_join. intros H.
  apply left_join_In in H. destruct H as [H Hproduct].
  apply left_join_In in H. destruct H as [Ho Hitem].
  split; [exact Ho|]. unfold hj_product, hj_order. cbn [fst snd] in *.
  destruct op as [p|]; [|exact I].
  destruct ooi as [oi|]; [|destruct Hproduct; discriminate].
  destruct Hitem as [Hoi Hon]. apply Z.eqb_eq in Hon. eauto.
Qed.


Lemma filter_none {A : Type} (f : A -> bool) (l : list A) :
  (forall x, In x l -> f x = false) -> filter f l = [].
Proof.
  induction l as [|y l IH]; cbn; intros H; [reflexivity|].
  rewrite (H y (or_introl eq_refl)). apply IH. auto.
Qed.




(** * Further properties *)

(** ** Transactions *)

Lemma with_connection_settled {A : Type} (body : M A) (s : session) :
  settled (snd (with_connection body s)).
Proof.
  unfold with_connection. destruct (body s) as [[a|e] s']; reflexivity.
Qed.

Lemma try_except_settled {A : Type} (body : M A) (catches : exn -> bool)
      (handler : exn -> M A) (s : session) :
  settled (snd (body s)) ->
  (forall e s', settled s' -> settled (snd (handler e s'))) ->
  settled (snd (try_except body catches handler s)).
Proof.
  intros Hbody Hhandler. unfold try_except.
  destruct (body s) as [[a|e] s']; cbn [snd] in *; [assumption|].
  destruct (catches e); [now apply Hhandler | assumption].
Qed.

(** The committed content after a [with] block is the content before it or
    the content the block left pending. *)
Lemma with_connection_durable {A : Type} (body : M A) (s : session) :
  (exists a, fst (with_connection body s) = Returned a
             /\ durable (snd (with_connection body s)) = pending (snd (body s)))
  \/ (exists e, fst (with_connection body s) = Raised e
                /\ fst (body s) = Raised e
                /\ durable (snd (with_connection body s))
                   = durable (snd (body s))).
Proof.
  unfold with_connection. destruct (body s) as [[a|e] s']; cbn; eauto.
Qed.

Lemma for_each_insert_durable (ps : list product_data) (s : session) :
  durable (snd (for_each insert_one ps s)) = durable s.
Proof.
  revert s. induction ps as [|d ps IH]; intros s; [reflexivity|].
  rewrite for_each_cons.
  destruct (insert_one_step d s) as (Hdur & _).
  destruct (insert_one d s) as [[[]|e] s1]; cbn [snd] in *.
  - now rewrite IH.
  - assumption.
Qed.

(** The two ways [batch_create_products] can end, by the way its loop
    ends. *)
Lemma batch_create_products_cases (ps : list product_data) (s : session) :
  match for_each insert_one ps s with
  | (Returned _, s1) =>
      fst (batch_create_products ps s) = Returned true
      /\ durable (snd (batch_create_products ps s)) = pending s1
  | (Raised x, s1) =>
      fst (batch_create_products ps s) <> Returned true
      /\ durable (snd (batch_create_products ps s)) = durable s1
  end.
Proof.
  unfold batch_create_products, try_except, with_connection, bind.
  destruct (for_each insert_one ps s) as [[[]|x] s1]; cbn.
  - split; reflexivity.
  - destruct (sqlite3_Error x); cbn; split; try discriminate; reflexivity.
Qed.

Ltac run_method :=
  unfold try_except, with_connection, bind, execute, select, lift,
    current_timestamp, log, commit, rollback, ret, raise;
  cbn [connect engine_state pending durable clock journal fst snd].

(** Every method of the CRUD and reporting layer, the seven that write and
    the four that read, ends with nothing pending on its connection; a write
    method that does not report success ([True], or the new identifier)
    leaves the committed database exactly as it found it, and a read method
    always does, whatever the condition of the engine. *)
Theorem writes_all_or_nothing (e : engine) (now : string) (db : database) :
  let s := connect e now db in
  (forall name description,
      settled (snd (create_category name description s))
      /\ ((forall id, fst (create_category name description s) <> Returned id)
          -> durable (snd (create_category name description s)) = db))
  /\ (forall data,
         settled (snd (create_product data s))
         /\ ((forall id, fst (create_product data s) <> Returned id)
             -> durable (snd (create_product data s)) = db))
  /\ (forall batch,
         settled (snd (batch_create_products batch s))
         /\ (fst (batch_create_products batch s) <> Returned true
             -> durable (snd (batch_create_products batch s)) = db))
  /\ (forall product_id update_data,
         settled (snd (update_product product_id update_data s))
         /\ (fst (update_product product_id update_data s) <> Returned true
             -> durable (snd (update_product product_id update_data s)) = db))
  /\ (forall category_id percent,
         settled (snd (bulk_update_prices category_id percent s))
         /\ (fst (bulk_update_prices category_id percent s) <> Returned true
             -> durable (snd (bulk_update_prices category_id percent s)) = db))
  /\ (forall product_id,
         settled (snd (delete_product product_id s))
         /\ (fst (delete_product product_id s) <> Returned true
             -> durable (snd (delete_product product_id s)) = db))
  /\ (forall table_name,
         settled (snd (truncate_table table_name s))
         /\ (fst (truncate_table table_name s) <> Returned true
             -> durable (snd (truncate_table table_name s)) = db))
  /\ (forall filters page per_page,
         settled (snd (get_products filters page per_page s))
         /\ durable (snd (get_products filters page per_page s)) = db)
  /\ (forall start_date end_date,
         settled (snd (get_sales_report start_date end_date s))
         /\ durable (snd (get_sales_report start_date end_date s)) = db)
  /\ (forall customer_id,
         settled (snd (get_customer_orders customer_id s))
         /\ durable (snd (get_customer_orders customer_id s)) = db)
  /\ (forall limit,
         settled (snd (get_popular_products limit s))
         /\ durable (snd (get_popular_products limit s)) = db).
Proof.
  intros s. subst s.
  repeat match goal with
         | |- _ /\ _ => split
         | |- forall _, _ => intro
         end.
  - unfold create_category.
    apply try_except_settled; [apply with_connection_settled|].
    intros x s' Hs'. exact Hs'.
  - revert H. unfold create_category, insert_category. run_method.
    destruct e; [|reflexivity].
    destruct (existsb _ (categories db)); [reflexivity|].
    cbn. intros H. exfalso. eapply H. reflexivity.
  - unfold create_product. destruct (negb (has_required_fields data));
      [reflexivity|].
    apply try_except_settled; [apply with_connection_settled|].
    intros x s' Hs'. exact Hs'.
  - unfold create_product in *.
    destruct (negb (has_required_fields data)); [reflexivity|].
    revert H. run_method.
    destruct (insert_parameters data) as [v|x]; cbn.
    + destruct e; cbn; [|reflexivity].
      destruct (insert_product v now db) as [id db'|err]; cbn; [|reflexivity].
      intros H. exfalso. eapply H. reflexivity.
    + now destruct (sqlite3_Error x).
  - unfold batch_create_products.
    apply try_except_settled; [apply with_connection_settled|].
    intros x s' Hs'. reflexivity.
  - pose proof (batch_create_products_cases batch (connect e now db)) as Hcases.
    pose proof (for_each_insert_durable batch (connect e now db)) as Hloop.
    destruct (for_each insert_one batch (connect e now db)) as [[[]|x] s2];
      cbn [snd connect durable] in Hloop; destruct Hcases as [Hret Hdur].
    + congruence.
    + congruence.
  - unfold update_product.
    apply try_except_settled; [apply with_connection_settled|].
    intros x s' Hs'. exact Hs'.
  - revert H. unfold update_product, update_products. run_method.
    destruct e; [|reflexivity]. cbn.
    destruct (product_exists product_id db); cbn; [|reflexivity].
    destruct (has_set_clause update_data); cbn; [|reflexivity].
    destruct (update_rows product_id update_data (products db)); cbn;
      [congruence | reflexivity].
  - unfold bulk_update_prices.
    apply try_except_settled; [apply with_connection_settled|].
    intros x s' Hs'. reflexivity.
  - revert H. unfold bulk_update_prices, update_prices. run_method.
    destruct e; [|reflexivity].
    match goal with |- context [if ?c then _ else _] => destruct c end; cbn;
      [congruence | reflexivity].
  - unfold delete_product.
    apply try_except_settled; [apply with_connection_settled|].
    intros x s' Hs'. exact Hs'.
  - revert H. unfold delete_product, delete_from_products. run_method.
    destruct e; [|reflexivity]. cbn.
    destruct (count_order_items product_id db >? 0); cbn;
      [reflexivity | congruence].
  - unfold truncate_table.
    destruct (negb (existsb (String.eqb table_name) allowed_tables));
      [reflexivity|].
    apply try_except_settled; [apply with_connection_settled|].
    intros x s' Hs'. reflexivity.
  - revert H. unfold truncate_table.
    destruct (negb (existsb (String.eqb table_name) allowed_tables));
      [reflexivity|].
    unfold delete_all, delete_sequence. run_method.
    destruct e; [|reflexivity].
    repeat match goal with
           | |- context [if ?c then _ else _] => destruct c; cbn
           end; try congruence; reflexivity.
  - destruct e; reflexivity.
  - destruct e; reflexivity.
  - destruct e; reflexivity.
  - destruct e; reflexivity.
  - destruct e; reflexivity.
  - destruct e; reflexivity.
  - destruct e; reflexivity.
  - destruct e; reflexivity.
Qed.

(** A refused deletion and a rejected table name in the sample shop. *)
Lemma writes_all_or_nothing_witness :
  durable (snd (delete_product 4 (connect Healthy timestamp shop))) = shop
  /\ durable (snd (truncate_table "sqlite_sequence"
                                  (connect Healthy timestamp shop))) = shop.
Proof.
  destruct (writes_all_or_nothing Healthy timestamp shop)
    as (_ & _ & _ & _ & _ & Hdelete & Htruncate & _).
  split.
  - apply (Hdelete 4). vm_compute. discriminate.
  - apply (Htruncate "sqlite_sequence"%string). vm_compute. discriminate.
Defined.

(** ** The constraints of the schema are kept *)

Lemma max_rowid_ge (ids : list Z) (x : Z) : In x ids -> x <= max_rowid ids.
Proof.
  induction ids as [|y ids IH]; [intros []|].
  change (max_rowid (y :: ids)) with (Z.max y (max_rowid ids)).
  intros [-> | H]; [lia | specialize (IH H); lia].
Qed.

Lemma next_rowid_fresh (table : string) (ids : list Z) (db : database) :
  ~ In (next_rowid table ids db) ids.
Proof.
  intros H. apply max_rowid_ge in H. unfold next_rowid in H. lia.
Qed.

Lemma NoDup_snoc {A : Type} (l : list A) (x : A) :
  NoDup l -> ~ In x l -> NoDup (l ++ [x]).
Proof.
  intros Hl Hx. apply NoDup_app; [assumption | repeat constructor; tauto|].
  intros y Hy [<- | []]. contradiction.
Qed.

Lemma NoDup_map_filter {A B : Type} (f : A -> B) (g : A -> bool) (l : list A) :
  NoDup (map f l) -> NoDup (map f (filter g l)).
Proof.
  induction l as [|x l IH]; cbn; [trivial|].
  intros H. inversion H as [|? ? Hx Hl]; subst.
  destruct (g x); cbn; [|now apply IH].
  constructor; [|now apply IH].
  intros Hin. apply Hx. apply in_map_iff in Hin.
  destruct Hin as [y [Hy Hfy]]. apply filter_In in Hfy.
  apply in_map_iff. exists y. tauto.
Qed.

Section KeepsSession.
Context {A B : Type}.

Lemma keeps_ret (a : A) : keeps_session (ret a).
Proof. intros s Hd Hp. auto. Qed.

Lemma keeps_raise (e : exn) : keeps_session (@raise A e).
Proof. intros s Hd Hp. auto. Qed.

Lemma keeps_lift (o : outcome A) : keeps_session (lift o).
Proof. intros s Hd Hp. auto. Qed.

Lemma keeps_bind (m : M A) (k : A -> M B) :
  keeps_session m -> (forall a, keeps_session (k a)) -> keeps_session (bind m k).
Proof.
  intros Hm Hk s Hd Hp. unfold bind.
  destruct (Hm s Hd Hp) as [Hd' Hp'].
  destruct (m s) as [[a|e] s']; cbn [snd] in *; [|auto].
  now apply Hk.
Qed.

Lemma keeps_execute (stmt : statement A) :
  keeps_schema stmt -> keeps_session (execute stmt).
Proof.
  intros Hstmt s Hd Hp. unfold execute.
  destruct (engine_state s); [|auto].
  destruct (stmt (pending s)) as [a db'|err] eqn:E; cbn; [|auto].
  split; [assumption | eapply Hstmt; eassumption].
Qed.

Lemma keeps_with_connection (body : M A) :
  keeps_session body -> keeps_session (with_connection body).
Proof.
  intros Hbody s Hd Hp. unfold with_connection.
  destruct (Hbody s Hd Hp) as [Hd' Hp'].
  destruct (body s) as [[a|e] s']; cbn in *; auto.
Qed.

Lemma keeps_try_except (body : M A) (catches : exn -> bool)
      (handler : exn -> M A) :
  keeps_session body -> (forall e, keeps_session (handler e)) ->
  keeps_session (try_except body catches handler).
Proof.
  intros Hbody Hhandler s Hd Hp. unfold try_except.
  destruct (Hbody s Hd Hp) as [Hd' Hp'].
  destruct (body s) as [[a|e] s']; cbn [snd] in *; [auto|].
  destruct (catches e); [now apply Hhandler | auto].
Qed.
End KeepsSession.

Lemma keeps_log (lvl : log_level) (msg : log_message) :
  keeps_session (log lvl msg).
Proof. intros s Hd Hp. auto. Qed.

Lemma keeps_commit : keeps_session commit.
Proof. intros s Hd Hp. auto. Qed.

Lemma keeps_rollback : keeps_session rollback.
Proof. intros s Hd Hp. auto. Qed.

Lemma keeps_current_timestamp : keeps_session current_timestamp.
Proof. intros s Hd Hp. auto. Qed.

Lemma keeps_select {A : Type} (q : database -> A) : keeps_schema (select q).
Proof. intros db a db' H E. inversion E. now subst. Qed.

Lemma keeps_for_each {A : Type} (f : A -> M unit) (l : list A) :
  (forall x, keeps_session (f x)) -> keeps_session (for_each f l).
Proof.
  intros Hf. induction l as [|x l IH]; cbn [for_each].
  - apply keeps_ret.
  - apply keeps_bind; [apply Hf | intros _; exact IH].
Qed.

Lemma keeps_insert_category (name description created_at : string) :
  keeps_schema (insert_category name description created_at).
Proof.
  intros db id db' [[Hp Hc Ho] Hn Hpr]. unfold insert_category.
  destruct (existsb _ (categories db)) eqn:Hdup; [discriminate|].
  intros E. inversion E; subst; clear E.
  constructor; [constructor|..]; cbn; try assumption.
  - rewrite map_app. cbn. apply NoDup_snoc; [assumption|].
    apply next_rowid_fresh.
  - rewrite map_app. cbn. apply NoDup_snoc; [assumption|].
    intros Hin. apply in_map_iff in Hin. destruct Hin as [c [Hname Hin]].
    assert (Hex : existsb (fun c => String.eqb (c_name c) name)
                          (categories db) = true).
    { apply existsb_exists. exists c. split; [assumption|].
      now apply String.eqb_eq. }
    congruence.
Qed.

Lemma keeps_insert_product (v : product_values) (created_at : string) :
  keeps_schema (insert_product v created_at).
Proof.
  intros db id db' [[Hp Hc Ho] Hn Hpr]. unfold insert_product.
  destruct (v_name v) as [name|] eqn:En; [|discriminate].
  destruct (v_price v) as [price|] eqn:Ep; [|discriminate].
  destruct (v_stock_quantity v) as [stock|] eqn:Es; [|discriminate].
  destruct (product_constraints v) eqn:Hcheck; [|discriminate].
  intros E. inversion E; subst; clear E.
  unfold product_constraints in Hcheck. rewrite En, Ep, Es in Hcheck.
  apply andb_true_iff in Hcheck. destruct Hcheck as [Hprice Hstock].
  apply Qle_bool_iff in Hprice. apply Z.leb_le in Hstock.
  constructor; [constructor|..]; cbn; try assumption.
  - rewrite map_app. cbn. apply NoDup_snoc; [assumption|].
    apply next_rowid_fresh.
  - intros p Hin. apply in_app_iff in Hin.
    destruct Hin as [Hin | [<- | []]]; [now apply Hpr|]. cbn. auto.
Qed.

Lemma updated_product_spec (u : product_update) (p p' : product) :
  updated_product u p = Some p' ->
  p_product_id p' = p_product_id p
  /\ (0 <= p_price p')%Q /\ 0 <= p_stock_quantity p'.
Proof.
  unfold updated_product.
  destruct (get_default (u_name u) (Some (p_name p))); [|discriminate].
  destruct (match u_price u with
            | Some v => option_map pynum_value v
            | None => Some (p_price p)
            end) as [q|]; [|discriminate].
  destruct (get_default (u_stock_quantity u) (Some (p_stock_quantity p)))
    as [st|]; [|discriminate].
  destruct (Qle_bool 0 q && (0 <=? st)) eqn:Hcheck; [|discriminate].
  intros E. inversion E; subst; clear E. cbn.
  apply andb_true_iff in Hcheck. destruct Hcheck as [Hq Hst].
  apply Qle_bool_iff in Hq. apply Z.leb_le in Hst. auto.
Qed.

Lemma update_rows_spec (pid : Z) (u : product_update) (ps ps' : list product) :
  update_rows pid u ps = Some ps' ->
  map p_product_id ps' = map p_product_id ps
  /\ ((forall p, In p ps -> (0 <= p_price p)%Q /\ 0 <= p_stock_quantity p) ->
      forall p, In p ps' -> (0 <= p_price p)%Q /\ 0 <= p_stock_quantity p).
Proof.
  revert ps'. induction ps as [|p ps IH]; cbn; intros ps' E.
  - inversion E. split; [reflexivity | intros _ q []].
  - destruct (if p_product_id p =? pid then updated_product u p else Some p)
      as [p1|] eqn:E1; [|discriminate].
    destruct (update_rows pid u ps) as [rest|]; [|discriminate].
    inversion E; subst; clear E.
    destruct (IH rest eq_refl) as [Hids Hpr].
    assert (H1 : p_product_id p1 = p_product_id p
                 /\ (((0 <= p_price p)%Q /\ 0 <= p_stock_quantity p) ->
                     (0 <= p_price p1)%Q /\ 0 <= p_stock_quantity p1)).
    { destruct (p_product_id p =? pid).
      - apply updated_product_spec in E1. tauto.
      - inversion E1. subst. tauto. }
    destruct H1 as [Hid1 Hpr1]. split.
    + cbn. now rewrite Hid1, Hids.
    + intros Hall q [<- | Hq].
      * apply Hpr1, Hall. now left.
      * apply Hpr; [|assumption]. intros q' Hq'. apply Hall. now right.
Qed.

Lemma keeps_update_products (pid : Z) (u : product_update) :
  keeps_schema (update_products pid u).
Proof.
  intros db a db' [[Hp Hc Ho] Hn Hpr]. unfold update_products.
  destruct (update_rows pid u (products db)) as [ps|] eqn:E; [|discriminate].
  intros E'. inversion E'; subst; clear E'.
  apply update_rows_spec in E. destruct E as [Hids Hkeep].
  constructor; [constructor|..]; cbn; try assumption.
  - now rewrite Hids.
  - now apply Hkeep.
Qed.

Lemma keeps_update_prices (percent : pynum) (cid : Z) :
  keeps_schema (update_prices percent cid).
Proof.
  intros db a db' [[Hp Hc Ho] Hn Hpr]. unfold update_prices.
  match goal with |- context [if ?c then _ else _] => destruct c eqn:Hcheck end;
    [|discriminate].
  intros E. inversion E; subst; clear E.
  constructor; [constructor|..]; cbn; try assumption.
  - rewrite map_map. erewrite map_ext; [exact Hp|].
    intros p. now destruct (in_category cid p).
  - intros p' Hin. apply in_map_iff in Hin. destruct Hin as [p [<- Hin]].
    destruct (in_category cid p) eqn:Hcat; [|now apply Hpr].
    cbn. split; [|now apply Hpr].
    rewrite forallb_forall in Hcheck.
    apply Qle_bool_iff.
    apply (Hcheck (set_price p (increased_price (p_price p) percent))).
    apply filter_In. split.
    + apply in_map_iff. exists p. rewrite Hcat. auto.
    + exact Hcat.
Qed.

Lemma keeps_delete_from_products (pid : Z) :
  keeps_schema (delete_from_products pid).
Proof.
  intros db a db' [[Hp Hc Ho] Hn Hpr]. unfold delete_from_products.
  intros E. inversion E; subst; clear E.
  constructor; [constructor|..]; cbn; try assumption.
  - now apply NoDup_map_filter.
  - intros p Hin. apply filter_In in Hin. now apply Hpr.
Qed.

Lemma keeps_delete_all (table_name : string) :
  keeps_schema (delete_all table_name).
Proof.
  intros db a db' [[Hp Hc Ho] Hn Hpr]. unfold delete_all.
  repeat match goal with
         | |- context [if ?c then _ else _] => destruct c
         end; intros E; inversion E; subst; clear E;
    (constructor; [constructor|..]); cbn; try assumption;
    try (intros p []); try apply NoDup_nil.
Qed.

Lemma keeps_delete_sequence (table_name : string) :
  keeps_schema (delete_sequence table_name).
Proof.
  intros db a db' [[Hp Hc Ho] Hn Hpr]. unfold delete_sequence.
  intros E. inversion E; subst; clear E.
  constructor; [constructor|..]; cbn; assumption.
Qed.

Ltac keeps :=
  repeat match goal with
         | |- keeps_session (if ?c then _ else _) => destruct c
         | |- keeps_session _ =>
             first [ apply keeps_try_except | apply keeps_with_connection
                   | apply keeps_bind | apply keeps_for_each
                   | apply keeps_execute | apply keeps_ret | apply keeps_raise
                   | apply keeps_lift | apply keeps_log | apply keeps_commit
                   | apply keeps_rollback | apply keeps_current_timestamp ]
         | |- keeps_schema _ =>
             first [ apply keeps_select | apply keeps_insert_category
                   | apply keeps_insert_product | apply keeps_update_products
                   | apply keeps_update_prices
                   | apply keeps_delete_from_products | apply keeps_delete_all
                   | apply keeps_delete_sequence ]
         | |- forall _, _ => intro
         end.

(** Every write method keeps the constraints of the schema on the
    committed database, whatever its arguments, its outcome and the condition
    of the engine: product, category and order identifiers stay unique,
    category names stay unique, and no price or stock quantity becomes
    negative. *)
Theorem writes_keep_schema (e : engine) (now : string) (db : database) :
  schema_holds db ->
  let s := connect e now db in
  (forall name description,
      schema_holds (durable (snd (create_category name description s))))
  /\ (forall data, schema_holds (durable (snd (create_product data s))))
  /\ (forall batch,
         schema_holds (durable (snd (batch_create_products batch s))))
  /\ (forall product_id update_data,
         schema_holds (durable (snd (update_product product_id update_data s))))
  /\ (forall category_id percent,
         schema_holds
           (durable (snd (bulk_update_prices category_id percent s))))
  /\ (forall product_id,
         schema_holds (durable (snd (delete_product product_id s))))
  /\ (forall table_name,
         schema_holds (durable (snd (truncate_table table_name s)))).
Proof.
  intros Hdb s.
  assert (Hall : forall (A : Type) (m : M A),
             keeps_session m -> schema_holds (durable (snd (m s)))).
  { intros A m Hm. apply Hm; exact Hdb. }
  repeat match goal with |- _ /\ _ => split end; intros; apply Hall.
  - unfold create_category. keeps.
  - unfold create_product. keeps.
  - unfold batch_create_products, insert_one. keeps.
  - unfold update_product. keeps.
  - unfold bulk_update_prices. keeps.
  - unfold delete_product. keeps.
  - unfold truncate_table. keeps.
Qed.

Lemma shop_schema : schema_holds shop.
Proof.
  constructor.
  - exact shop_keys.
  - distinct_keys.
  - intros p Hin. cbn in Hin.
    repeat (destruct Hin as [<- | Hin]; [cbn; split; [discriminate | lia]|]).
    contradiction.
Qed.

(** The sample shop after a price cut of 50 per cent on the books. *)
Lemma writes_keep_schema_witness :
  schema_holds shop
  /\ schema_holds
       (durable (snd (bulk_update_prices 2 (PyFloat (-50))
                                         (connect Healthy timestamp shop)))).
Proof.
  split; [exact shop_schema|].
  destruct (writes_keep_schema Healthy timestamp shop shop_schema)
    as (_ & _ & _ & _ & Hbulk & _).
  apply Hbulk.
Defined.

(** ** create_category and create_product *)

Lemma name_is_new (name : string) (cs : list category) :
  (forall c, In c cs -> c_name c <> name) ->
  existsb (fun c => String.eqb (c_name c) name) cs = false.
Proof.
  intros H. destruct (existsb _ cs) eqn:E; [|reflexivity].
  apply existsb_exists in E. destruct E as [c [Hin Heq]].
  apply String.eqb_eq in Heq. now apply H in Hin.
Qed.

Lemma next_rowid_above (table : string) (ids : list Z) (db : database) (x : Z) :
  In x ids -> x < next_rowid table ids db.
Proof.
  intros H. apply max_rowid_ge in H. unfold next_rowid. lia.
Qed.

Lemma create_category_new (now : string) (db : database)
      (name description : string) :
  existsb (fun c => String.eqb (c_name c) name) (categories db) = false ->
  let id := next_rowid "categories" (map c_category_id (categories db)) db in
  let db' :=
    set_sqlite_sequence
      (set_categories db
         (categories db ++ [{| c_category_id := id; c_name := name;
                               c_description := Some description;
                               c_created_at := now |}]))
      (record_rowid "categories" id (sqlite_sequence db)) in
  create_category name description (connect Healthy now db)
  = (Returned id,
     {| engine_state := Healthy; clock := now; durable := db';
        pending := db'; journal := [(INFO, CategoryCreated name id)] |}).
Proof.
  intros Hnew. unfold create_category, insert_category. run_method.
  rewrite Hnew. reflexivity.
Qed.

Lemma create_category_duplicate (now : string) (db : database)
      (name description : string) :
  existsb (fun c => String.eqb (c_name c) name) (categories db) = true ->
  create_category name description (connect Healthy now db)
  = (Raised (SqliteError IntegrityError),
     {| engine_state := Healthy; clock := now; durable := db;
        pending := db; journal := [(ERROR, CategoryExists name)] |}).
Proof.
  intros Hdup. unfold create_category, insert_category. run_method.
  rewrite Hdup. reflexivity.
Qed.

(** On a working engine [create_category] with a name no category has
    returns an identifier larger than every identifier in the table, commits
    the new row at the end of [categories] with the given name and
    description, and touches none of the tables [products], [customers],
    [orders] and [order_items]; calling it again with the same name raises
    [IntegrityError] and leaves that database as it is. *)
Theorem create_category_once (now : string) (db : database)
        (name description : string) :
  (forall c, In c (categories db) -> c_name c <> name) ->
  let r := create_category name description (connect Healthy now db) in
  exists id,
    fst r = Returned id
    /\ (forall c, In c (categories db) -> c_category_id c < id)
    /\ categories (durable (snd r))
       = categories db ++ [{| c_category_id := id; c_name := name;
                              c_description := Some description;
                              c_created_at := now |}]
    /\ products (durable (snd r)) = products db
    /\ customers (durable (snd r)) = customers db
    /\ orders (durable (snd r)) = orders db
    /\ order_items (durable (snd r)) = order_items db
    /\ journal (snd r) = [(INFO, CategoryCreated name id)]
    /\ (forall description' now',
           let r' := create_category name description'
                                     (connect Healthy now' (durable (snd r))) in
           fst r' = Raised (SqliteError IntegrityError)
           /\ durable (snd r') = durable (snd r)).
Proof.
  intros Hnew r. subst r.
  rewrite (create_category_new now db name description
                               (name_is_new _ _ Hnew)).
  eexists. split; [reflexivity|].
  split; [intros c Hc; apply next_rowid_above; now apply in_map|].
  do 6 (split; [reflexivity|]).
  intros description' now'. cbn [snd durable].
  rewrite create_category_duplicate; [split; reflexivity|].
  cbn [categories set_sqlite_sequence set_categories].
  rewrite existsb_app. cbn [existsb c_name]. rewrite String.eqb_refl.
  rewrite orb_true_r. reflexivity.
Qed.

(** A new category in the sample shop. *)
Lemma create_category_once_witness :
  fst (create_category "Toys" "" (connect Healthy timestamp shop)) = Returned 4
  /\ fst (create_category "Toys" ""
            (connect Healthy timestamp
               (durable (snd (create_category "Toys" ""
                                (connect Healthy timestamp shop))))))
     = Raised (SqliteError IntegrityError).
Proof.
  destruct (create_category_once timestamp shop "Toys" "")
    as (id & Hret & _ & _ & _ & _ & _ & _ & _ & Hagain).
  - intros c Hin. cbn in Hin.
    repeat (destruct Hin as [<- | Hin]; [discriminate|]). contradiction.
  - split; [reflexivity|]. apply (Hagain ""%string timestamp).
Defined.

Lemma get_products_healthy (now : string) (db : database)
      (filters : product_filters) (page per_page : Z) :
  fst (get_products filters page per_page (connect Healthy now db))
  = Returned (select_products filters page per_page db).
Proof. reflexivity. Qed.

(** Without filters and without limit every product is listed. *)
Lemma select_products_all (db : database) (p : product) :
  In p (products db) ->
  exists category_name,
    In {| pr_product := p; pr_category_name := category_name |}
       (select_products no_filters 1 (-1) db).
Proof.
  intros Hp. unfold select_products.
  destruct (left_join_keeps
              (fun p c => sql_eq_opt (p_category_id p) (c_category_id c))
              p (products db) (categories db) Hp) as [oc Hjoin].
  exists (option_map c_name oc).
  rewrite limit_offset_all by (left; reflexivity).
  apply in_map_iff. exists (p, oc). split; [reflexivity|].
  apply order_by_In, filter_In. split; [exact Hjoin | reflexivity].
Qed.

(** [create_product] validates only the presence of the keys [name],
    [price] and [category_id]: when one is absent it raises [ValueError]
    without logging and without using the connection, whatever the engine's
    condition; when they are present but the values violate a constraint of
    the table (a [None] name or price, a negative price or stock), the
    engine's [IntegrityError] is logged and re-raised and nothing is
    committed. *)
Theorem create_product_rejects (now : string) (db : database)
        (data : product_data) :
  (has_required_fields data = false ->
   forall e, create_product data (connect e now db)
             = (Raised ValueError, connect e now db))
  /\ (has_required_fields data = true -> insertion_fails data ->
      let r := create_product data (connect Healthy now db) in
      fst r = Raised (SqliteError IntegrityError)
      /\ durable (snd r) = db
      /\ journal (snd r) = [(ERROR, ProductCreateFailed)]).
Proof.
  split.
  - intros Hmissing e. unfold create_product. now rewrite Hmissing.
  - intros Hpresent Hfails r. subst r.
    unfold create_product. rewrite Hpresent. cbn [negb].
    destruct Hfails as [[k Hk] | [v [Hv Hc]]].
    + exfalso. revert Hpresent Hk.
      unfold has_required_fields, insert_parameters, subscript.
      destruct (d_name data), (d_price data), (d_category_id data);
        discriminate.
    + run_method. rewrite Hv. cbn.
      rewrite (insert_product_constraints _ _ _ Hc). cbn. auto.
Qed.

(** A dictionary without [price], and one whose name is [None]. *)
Lemma create_product_rejects_witness :
  fst (create_product (sample_data (Some (Some "Pen"%string)) None)
                      (connect Faulty timestamp shop))
  = Raised ValueError
  /\ fst (create_product (sample_data (Some None) (Some (Some (PyInt 2))))
                         (connect Healthy timestamp shop))
     = Raised (SqliteError IntegrityError).
Proof.
  split.
  - destruct (create_product_rejects
                timestamp shop (sample_data (Some (Some "Pen"%string)) None))
      as [Hmissing _].
    rewrite (Hmissing eq_refl Faulty). reflexivity.
  - destruct (create_product_rejects
                timestamp shop
                (sample_data (Some None) (Some (Some (PyInt 2)))))
      as [_ Hviolated].
    apply Hviolated; [reflexivity|].
    right. eexists. split; reflexivity.
Defined.

Lemma create_product_new (now : string) (db : database) (data : product_data)
      (v : product_values) :
  insert_parameters data = Returned v ->
  product_constraints v = true ->
  exists name price stock,
    v_name v = Some name /\ v_price v = Some price
    /\ v_stock_quantity v = Some stock
    /\ let id := next_rowid "products" (map p_product_id (products db)) db in
       let db' :=
         set_sqlite_sequence
           (set_products db
              (products db
               ++ [{| p_product_id := id; p_name := name;
                      p_description := v_description v;
                      p_price := pynum_value price;
                      p_stock_quantity := stock;
                      p_category_id := v_category_id v;
                      p_created_at := now |}]))
           (record_rowid "products" id (sqlite_sequence db)) in
       create_product data (connect Healthy now db)
       = (Returned id,
          {| engine_state := Healthy; clock := now; durable := db';
             pending := db';
             journal := [(INFO, ProductCreated (Some name) id)] |}).
Proof.
  intros Hv Hc.
  assert (Hreq : has_required_fields data = true).
  { revert Hv. unfold has_required_fields, insert_parameters, subscript.
    destruct (d_name data), (d_price data), (d_category_id data);
      try discriminate; reflexivity. }
  assert (Hc' := Hc). unfold product_constraints in Hc'.
  destruct (v_name v) as [name|] eqn:En; [|discriminate].
  destruct (v_price v) as [price|] eqn:Ep; [|discriminate].
  destruct (v_stock_quantity v) as [stock|] eqn:Es; [|discriminate].
  exists name, price, stock. repeat split.
  unfold create_product. rewrite Hreq. cbn [negb].
  run_method. rewrite Hv. cbn [fst snd].
  unfold insert_product. rewrite ?En, ?Ep, ?Es, ?Hc. cbn. rewrite ?En.
  reflexivity.
Qed.

(** On a working engine [create_product] with a dictionary that holds the
    required keys and respects the constraints returns an identifier larger
    than every identifier in the table and commits one new row at the end of
    [products]: it carries the submitted name, price and category, the
    description and stock quantity of the dictionary or the defaults [''] and
    [0], and the current time; [get_products] without filters and without
    limit lists it. *)
Theorem create_product_round_trip (now : string) (db : database)
        (data : product_data) (v : product_values) :
  insert_parameters data = Returned v ->
  product_constraints v = true ->
  let r := create_product data (connect Healthy now db) in
  exists id row,
    fst r = Returned id
    /\ (forall p, In p (products db) -> p_product_id p < id)
    /\ products (durable (snd r)) = products db ++ [row]
    /\ p_product_id row = id
    /\ d_name data = Some (Some (p_name row))
    /\ (exists price, d_price data = Some (Some price)
                      /\ p_price row = pynum_value price)
    /\ p_description row = get_default (d_description data) (Some ""%string)
    /\ Some (p_stock_quantity row)
       = get_default (d_stock_quantity data) (Some 0)
    /\ d_category_id data = Some (p_category_id row)
    /\ p_created_at row = now
    /\ exists category_name,
        In {| pr_product := row; pr_category_name := category_name |}
           (select_products no_filters 1 (-1) (durable (snd r))).
Proof.
  intros Hv Hc r. subst r.
  destruct (create_product_new now db data v Hv Hc)
    as (name & price & stock & En & Ep & Es & Hrun).
  cbv zeta in Hrun. rewrite Hrun. clear Hrun. cbn [fst snd durable].
  exists (next_rowid "products" (map p_product_id (products db)) db).
  exists {| p_product_id :=
              next_rowid "products" (map p_product_id (products db)) db;
            p_name := name; p_description := v_description v;
            p_price := pynum_value price; p_stock_quantity := stock;
            p_category_id := v_category_id v; p_created_at := now |}.
  cbn [p_product_id p_name p_description p_price p_stock_quantity
       p_category_id p_created_at products set_sqlite_sequence set_products].
  split; [reflexivity|].
  split; [intros p Hp; apply next_rowid_above; now apply in_map|].
  split; [reflexivity|]. split; [reflexivity|].
  revert Hv. unfold insert_parameters, subscript.
  destruct (d_name data) as [n|]; [|discriminate].
  destruct (d_price data) as [pr|]; [|discriminate].
  destruct (d_category_id data) as [c|]; [|discriminate].
  intros Hv. inversion Hv; subst v; clear Hv.
  cbn [v_name v_price v_stock_quantity v_description v_category_id] in *.
  subst n pr. rewrite Es.
  split; [reflexivity|]. split; [eauto|].
  do 4 (split; [reflexivity|]).
  apply select_products_all.
  cbn [products set_sqlite_sequence set_products].
  apply in_or_app. right. now left.
Qed.

(** A pen at 1.50 added to the sample shop gets identifier 6, the default
    description and the stock quantity of the dictionary. *)
Lemma create_product_round_trip_witness :
  exists id row,
    fst (create_product
           (sample_data (Some (Some "Pen"%string)) (Some (Some (PyFloat (3 # 2)))))
           (connect Healthy timestamp shop)) = Returned id
    /\ id = 6 /\ p_product_id row = 6
    /\ p_description row = Some ""%string
    /\ p_stock_quantity row = 5.
Proof.
  destruct (create_product_round_trip
              timestamp shop
              (sample_data (Some (Some "Pen"%string))
                           (Some (Some (PyFloat (3 # 2)))))
              {| v_name := Some "Pen"%string; v_description := Some ""%string;
                 v_price := Some (PyFloat (3 # 2));
                 v_stock_quantity := Some 5; v_category_id := Some 1 |}
              eq_refl eq_refl)
    as (id & row & Hret & _ & _ & Hid & _ & _ & Hdesc & Hstock & _).
  exists id, row.
  assert (Hsix : id = 6).
  { cbn in Hret. inversion Hret. reflexivity. }
  split; [exact Hret|]. split; [exact Hsix|].
  split; [now rewrite Hid|]. split; [exact Hdesc|].
  cbn in Hstock. now inversion Hstock.
Defined.

(** ** Identifiers are not reused *)

Lemma sequence_of_record (table : string) (id : Z) (seq : list (string * Z)) :
  sequence_of table (record_rowid table id seq) = id.
Proof.
  unfold sequence_of, record_rowid, forget_sequence.
  induction seq as [|r seq IH]; cbn.
  - now rewrite String.eqb_refl.
  - destruct (String.eqb (fst r) table) eqn:E; cbn; [exact IH|].
    now rewrite E.
Qed.

Lemma delete_product_cases (now : string) (db : database) (pid : Z) :
  delete_product pid (connect Healthy now db)
  = if count_order_items pid db >? 0
    then (Returned false,
          {| engine_state := Healthy; clock := now; durable := db;
             pending := db; journal := [(WARNING, DeleteRefused pid)] |})
    else
      let db' := set_products db
                   (filter (fun p => negb (p_product_id p =? pid))
                           (products db)) in
      (Returned true,
       {| engine_state := Healthy; clock := now; durable := db';
          pending := db'; journal := [(INFO, ProductDeleted pid)] |}).
Proof.
  unfold delete_product, delete_from_products. run_method.
  now destruct (count_order_items pid db >? 0).
Qed.

Lemma max_rowid_le (ids : list Z) (bound : Z) :
  0 <= bound -> (forall x, In x ids -> x <= bound) -> max_rowid ids <= bound.
Proof.
  intros Hb. induction ids as [|y ids IH]; intros H; [exact Hb|].
  change (max_rowid (y :: ids)) with (Z.max y (max_rowid ids)).
  assert (y <= bound) by (apply H; now left).
  assert (max_rowid ids <= bound) by (apply IH; intros x Hx; apply H; now right).
  lia.
Qed.

(** AUTOINCREMENT at work: when [create_product] has returned an
    identifier and [delete_product] has then deleted that product, the
    identifier is gone from the table, and the next [create_product] does not
    give it out again but returns the next one. *)
Theorem product_ids_not_reused (now : string) (db : database)
        (data data' : product_data) (v v' : product_values) (id : Z) :
  insert_parameters data = Returned v -> product_constraints v = true ->
  insert_parameters data' = Returned v' -> product_constraints v' = true ->
  let r1 := create_product data (connect Healthy now db) in
  let r2 := delete_product id (connect Healthy now (durable (snd r1))) in
  let r3 := create_product data' (connect Healthy now (durable (snd r2))) in
  fst r1 = Returned id ->
  fst r2 = Returned true ->
  (forall p, In p (products (durable (snd r2))) -> p_product_id p <> id)
  /\ fst r3 = Returned (id + 1).
Proof.
  intros Hv Hc Hv' Hc' r1 r2 r3. subst r1 r2 r3.
  destruct (create_product_new now db data v Hv Hc)
    as (name & price & stock & _ & _ & _ & Hrun).
  cbv zeta in Hrun. rewrite Hrun. clear Hrun. cbn [fst snd durable].
  intros Hid. injection Hid as Hid'. rewrite !Hid'.
  rewrite delete_product_cases.
  match goal with |- context [if ?c then _ else _] => destruct c end;
    [discriminate|].
  cbv zeta. cbn [fst snd durable]. intros _. split.
  - intros p Hp. cbn [products set_products set_sqlite_sequence] in Hp.
    apply filter_In in Hp. destruct Hp as [_ Hne].
    apply negb_true_iff, Z.eqb_neq in Hne. exact Hne.
  - match goal with
    | |- context [create_product data' (connect Healthy now ?d)] =>
        destruct (create_product_new now d data' v' Hv' Hc')
          as (name' & price' & stock' & _ & _ & _ & Hrun')
    end.
    cbv zeta in Hrun'. rewrite Hrun'. clear Hrun'. cbn [fst].
    f_equal. unfold next_rowid.
    cbn [sqlite_sequence products set_products set_sqlite_sequence].
    rewrite sequence_of_record.
    pose proof (max_rowid_ge (map p_product_id (products db))) as Hold.
    assert (Hle : max_rowid
                    (map p_product_id
                       (filter (fun p => negb (p_product_id p =? id))
                          (products db
                           ++ [{| p_product_id := id; p_name := name;
                                  p_description := v_description v;
                                  p_price := pynum_value price;
                                  p_stock_quantity := stock;
                                  p_category_id := v_category_id v;
                                  p_created_at := now |}]))) <= id).
    { apply max_rowid_le.
      - rewrite <- Hid'. unfold next_rowid.
        pose proof (max_rowid_ge (map p_product_id (products db))).
        assert (0 <= max_rowid (map p_product_id (products db))).
        { clear. induction (map p_product_id (products db)) as [|y l IH];
            [cbn; lia|].
          change (max_rowid (y :: l)) with (Z.max y (max_rowid l)). lia. }
        lia.
      - intros x Hx. apply in_map_iff in Hx. destruct Hx as [p [<- Hp]].
        apply filter_In in Hp. destruct Hp as [Hp _].
        apply in_app_iff in Hp. destruct Hp as [Hp | [<- | []]].
        + rewrite <- Hid'. apply Z.lt_le_incl, next_rowid_above.
          now apply in_map.
        + cbn. lia. }
    lia.
Qed.

(** A pen created in the sample shop gets identifier 6; once deleted, the
    next product gets 7. *)
Lemma product_ids_not_reused_witness :
  let pen :=
    sample_data (Some (Some "Pen"%string)) (Some (Some (PyInt 2))) in
  let r1 := create_product pen (connect Healthy timestamp shop) in
  let r2 := delete_product 6 (connect Healthy timestamp (durable (snd r1))) in
  fst r1 = Returned 6
  /\ fst r2 = Returned true
  /\ fst (create_product pen (connect Healthy timestamp (durable (snd r2))))
     = Returned 7.
Proof.
  intros pen r1 r2.
  assert (H1 : fst r1 = Returned 6) by reflexivity.
  assert (H2 : fst r2 = Returned true) by reflexivity.
  split; [exact H1|]. split; [exact H2|].
  apply (product_ids_not_reused
           timestamp shop pen pen
           {| v_name := Some "Pen"%string; v_description := Some ""%string;
              v_price := Some (PyInt 2); v_stock_quantity := Some 5;
              v_category_id := Some 1 |}
           {| v_name := Some "Pen"%string; v_description := Some ""%string;
              v_price := Some (PyInt 2); v_stock_quantity := Some 5;
              v_category_id := Some 1 |}
           6 eq_refl eq_refl eq_refl eq_refl H1 H2).
Defined.

(** ** get_products *)

Lemma left_join_None {A B : Type} (on : A -> B -> bool) (a : A)
      (l : list A) (r : list B) :
  In (a, None) (left_join on l r) -> forall b, In b r -> on a b = false.
Proof.
  unfold left_join. rewrite in_flat_map. intros [a' [Ha Hin]] b Hb.
  destruct (filter (on a') r) as [|b' m] eqn:E.
  - destruct Hin as [Heq | []]. inversion Heq; subst.
    destruct (on a b) eqn:Hon; [|reflexivity].
    assert (Hf : In b (filter (on a) r)) by (apply filter_In; auto).
    rewrite E in Hf. contradiction.
  - apply in_map_iff in Hin. destruct Hin as [x [Heq _]]. discriminate.
Qed.

Lemma limit_offset_In {A : Type} (limit offset : Z) (x : A) (rows : list A) :
  In x (limit_offset limit offset rows) -> In x rows.
Proof.
  unfold limit_offset. intros H.
  assert (Hskip : forall y, In y (skipn (Z.to_nat offset) rows) -> In y rows).
  { intros y Hy. rewrite <- (firstn_skipn (Z.to_nat offset) rows).
    apply in_or_app. now right. }
  destruct (limit <? 0); [now apply Hskip|].
  apply Hskip.
  rewrite <- (firstn_skipn (Z.to_nat limit) (skipn (Z.to_nat offset) rows)).
  apply in_or_app. now left.
Qed.

Lemma limit_offset_length {A : Type} (limit offset : Z) (rows : list A) :
  0 <= limit ->
  Z.of_nat (List.length (limit_offset limit offset rows)) <= limit.
Proof.
  intros H. unfold limit_offset.
  assert (E : (limit <? 0) = false) by now apply Z.ltb_ge.
  rewrite E.
  pose proof (firstn_le_length (Z.to_nat limit)
                               (skipn (Z.to_nat offset) rows)).
  lia.
Qed.

Section SortedSlices.
Context {A : Type} (R : A -> A -> Prop).

Lemma Sorted_skipn (n : nat) (l : list A) : Sorted R l -> Sorted R (skipn n l).
Proof.
  revert l. induction n as [|n IH]; intros l H; [exact H|].
  destruct l as [|x l]; [constructor|]. cbn. apply IH. now inversion H.
Qed.

Lemma Sorted_firstn (n : nat) (l : list A) : Sorted R l -> Sorted R (firstn n l).
Proof.
  revert l. induction n as [|n IH]; intros l H; [constructor|].
  destruct l as [|x l]; [constructor|]. cbn.
  inversion H as [|? ? Hl Hhd]; subst. constructor; [now apply IH|].
  destruct n; [constructor|].
  destruct l as [|y l]; constructor. now inversion Hhd.
Qed.

Lemma Sorted_limit_offset (limit offset : Z) (l : list A) :
  Sorted R l -> Sorted R (limit_offset limit offset l).
Proof.
  intros H. unfold limit_offset.
  destruct (limit <? 0); [|apply Sorted_firstn]; now apply Sorted_skipn.
Qed.
End SortedSlices.

Lemma Sorted_map {A B : Type} (f : A -> B) (R : B -> B -> Prop) (l : list A) :
  Sorted (fun a b => R (f a) (f b)) l -> Sorted R (map f l).
Proof.
  induction 1 as [|a l Hs IH Hhd]; cbn; constructor; [assumption|].
  destruct Hhd; cbn; constructor. assumption.
Qed.

Lemma leb_desc_total (a b : string) :
  String.leb b a = false -> String.leb a b = true.
Proof.
  intros H. destruct (String.leb_total a b) as [H1 | H1]; congruence.
Qed.

(** Every row [get_products] returns is a product of the database that
    passes each filter given (category, price bounds, search pattern on name
    or description), carries the name of the category its [category_id]
    points to, or NULL when there is no such category, and is at least as
    recent as the row after it; with a [per_page] that is not negative, at
    most [per_page] rows are returned. *)
Theorem get_products_rows (db : database) (filters : product_filters)
        (page per_page : Z) :
  let rows := select_products filters page per_page db in
  (forall r, In r rows ->
     let p := pr_product r in
     In p (products db)
     /\ (forall cid, f_category_id filters = Some cid ->
                     p_category_id p = Some cid)
     /\ (forall lo, f_min_price filters = Some lo ->
                    (pynum_value lo <= p_price p)%Q)
     /\ (forall hi, f_max_price filters = Some hi ->
                    (p_price p <= pynum_value hi)%Q)
     /\ (forall search, f_search filters = Some search ->
           sql_like (p_name p) ("%" ++ search ++ "%")
           || sql_like_opt (p_description p) ("%" ++ search ++ "%") = true)
     /\ match pr_category_name r with
        | Some n => exists c, In c (categories db)
                              /\ p_category_id p = Some (c_category_id c)
                              /\ c_name c = n
        | None => forall c, In c (categories db) ->
                            p_category_id p <> Some (c_category_id c)
        end)
  /\ Sorted (fun a b => String.leb (p_created_at (pr_product b))
                                   (p_created_at (pr_product a)) = true) rows
  /\ (0 <= per_page -> Z.of_nat (List.length rows) <= per_page).
Proof.
  intros rows. subst rows. unfold select_products. split; [|split].
  - intros r Hr. apply in_map_iff in Hr. destruct Hr as [[p oc] [<- Hpc]].
    apply limit_offset_In, order_by_In, filter_In in Hpc.
    destruct Hpc as [Hjoin Hwhere]. cbn [fst snd pr_product pr_category_name] in *.
    pose proof (left_join_In _ _ _ _ _ Hjoin) as [Hp Hmatch].
    split; [exact Hp|].
    unfold products_where in Hwhere.
    repeat (apply andb_true_iff in Hwhere; destruct Hwhere as [Hwhere ?]).
    split; [|split; [|split; [|split]]].
    + intros cid Hf. rewrite Hf in Hwhere. unfold sql_eq_opt in Hwhere.
      destruct (p_category_id p) as [x|]; [|discriminate].
      apply Z.eqb_eq in Hwhere. now subst.
    + intros lo Hf. rewrite Hf in *. now apply Qle_bool_iff.
    + intros hi Hf. rewrite Hf in *. now apply Qle_bool_iff.
    + intros search Hf. rewrite Hf in *. assumption.
    + destruct oc as [c|]; cbn.
      * destruct Hmatch as [Hc Hon]. exists c. split; [exact Hc|].
        split; [|reflexivity]. unfold sql_eq_opt in Hon.
        destruct (p_category_id p) as [x|]; [|discriminate].
        apply Z.eqb_eq in Hon. now subst.
      * intros c Hc Heq.
        pose proof (left_join_None _ _ _ _ Hjoin c Hc) as Hoff.
        cbn in Hoff. rewrite Heq in Hoff. cbn in Hoff.
        now rewrite Z.eqb_refl in Hoff.
  - apply Sorted_map. apply Sorted_limit_offset.
    apply (order_by_sorted
             (fun a b : product * option category =>
                String.leb (p_created_at (fst b)) (p_created_at (fst a)))).
    intros a b. apply leb_desc_total.
  - intros Hpp. rewrite length_map. now apply limit_offset_length.
Qed.

(** Books of the sample shop from 21.00 upwards. *)
Lemma get_products_rows_witness :
  let filters := {| f_category_id := Some 2; f_min_price := Some (PyInt 21);
                    f_max_price := None; f_search := None |} in
  let rows := select_products filters 1 10 shop in
  rows <> []
  /\ (forall r, In r rows ->
                p_category_id (pr_product r) = Some 2
                /\ (21 <= p_price (pr_product r))%Q)
  /\ Z.of_nat (List.length rows) <= 10.
Proof.
  intros filters rows.
  destruct (get_products_rows shop filters 1 10) as (Hrows & _ & Hlen).
  split; [discriminate|]. split.
  - intros r Hr. destruct (Hrows r Hr) as (_ & Hcat & Hmin & _).
    split; [now apply Hcat | now apply (Hmin (PyInt 21))].
  - apply Hlen. lia.
Defined.

Lemma select_products_slice (db : database) (filters : product_filters)
      (limit offset : Z) :
  map (fun pc : product * option category =>
         {| pr_product := fst pc;
            pr_category_name := option_map c_name (snd pc) |})
      (limit_offset limit offset
         (order_by (fun a b => String.leb (p_created_at (fst b))
                                          (p_created_at (fst a)))
            (filter (fun pc => products_where filters (fst pc))
               (left_join (fun p c => sql_eq_opt (p_category_id p)
                                                 (c_category_id c))
                          (products db) (categories db)))))
  = limit_offset limit offset (select_products filters 1 (-1) db).
Proof.
  unfold select_products.
  rewrite (limit_offset_all (-1)) by (left; reflexivity).
  unfold limit_offset. cbv zeta.
  destruct (limit <? 0); [now rewrite skipn_map|].
  now rewrite skipn_map, firstn_map.
Qed.

Lemma firstn_add {A : Type} (n m : nat) (l : list A) :
  firstn (n + m) l = firstn n l ++ firstn m (skipn n l).
Proof.
  revert l. induction n as [|n IH]; intros l; [reflexivity|].
  destruct l as [|x l]; cbn; [now rewrite firstn_nil|]. now rewrite IH.
Qed.

(** Pagination of [get_products]: with a [per_page] that is not negative,
    page [page] is the slice of the complete listing (the one obtained with
    [per_page = -1]) that skips [(page - 1) * per_page] rows and takes
    [per_page]; so the pages 1 to [n] put one after the other are the first
    [n * per_page] rows of the listing, a page number of 1 or less gives the
    first page, and a page past the end is empty.  With a negative
    [per_page] and a page of 1 or more the complete listing is returned. *)
Theorem get_products_pagination (db : database) (filters : product_filters)
        (page per_page : Z) :
  let listing := select_products filters 1 (-1) db in
  (0 <= per_page ->
   select_products filters page per_page db
   = firstn (Z.to_nat per_page)
            (skipn (Z.to_nat ((page - 1) * per_page)) listing))
  /\ (0 <= per_page ->
      forall n : nat,
        flat_map (fun k => select_products filters (Z.of_nat k) per_page db)
                 (seq 1 n)
        = firstn (n * Z.to_nat per_page) listing)
  /\ (0 <= per_page -> page <= 1 ->
      select_products filters page per_page db
      = select_products filters 1 per_page db)
  /\ (0 <= per_page ->
      Z.of_nat (List.length listing) <= (page - 1) * per_page ->
      select_products filters page per_page db = [])
  /\ (per_page < 0 -> 1 <= page ->
      select_products filters page per_page db = listing).
Proof.
  intros listing.
  assert (Hslice : forall pg pp,
             select_products filters pg pp db
             = limit_offset pp ((pg - 1) * pp) listing).
  { intros pg pp. unfold listing. rewrite <- select_products_slice.
    reflexivity. }
  assert (Hpage : forall pg, 0 <= per_page ->
             select_products filters pg per_page db
             = firstn (Z.to_nat per_page)
                      (skipn (Z.to_nat ((pg - 1) * per_page)) listing)).
  { intros pg Hpp. rewrite Hslice. unfold limit_offset.
    assert (E : (per_page <? 0) = false) by now apply Z.ltb_ge.
    now rewrite E. }
  split; [apply Hpage|]. split; [|split; [|split]].
  - intros Hpp n. induction n as [|n IH]; [reflexivity|].
    rewrite seq_S, flat_map_app, IH. cbn [flat_map].
    rewrite app_nil_r, Hpage by assumption.
    replace (Z.to_nat ((Z.of_nat (1 + n) - 1) * per_page))
      with (n * Z.to_nat per_page)%nat by nia.
    replace (S n * Z.to_nat per_page)%nat
      with (n * Z.to_nat per_page + Z.to_nat per_page)%nat by lia.
    now rewrite firstn_add.
  - intros Hpp Hpg. rewrite !Hpage by assumption.
    replace (Z.to_nat ((page - 1) * per_page)) with 0%nat by nia.
    replace (Z.to_nat ((1 - 1) * per_page)) with 0%nat by lia.
    reflexivity.
  - intros Hpp Hend. rewrite Hpage by assumption.
    rewrite skipn_all2 by lia. apply firstn_nil.
  - intros Hpp Hpg. rewrite Hslice. unfold limit_offset.
    assert (E : (per_page <? 0) = true) by now apply Z.ltb_lt.
    rewrite E.
    replace (Z.to_nat ((page - 1) * per_page)) with 0%nat by nia.
    reflexivity.
Qed.

(** The five products of the sample shop in pages of two. *)
Lemma get_products_pagination_witness :
  select_products no_filters 1 2 shop ++ select_products no_filters 2 2 shop
  ++ select_products no_filters 3 2 shop
  = select_products no_filters 1 (-1) shop
  /\ select_products no_filters 4 2 shop = [].
Proof.
  destruct (get_products_pagination shop no_filters 4 2)
    as (_ & Hpages & _ & Hpast & _).
  split.
  - specialize (Hpages ltac:(lia) 3%nat).
    cbn [seq flat_map Z.of_nat] in Hpages. rewrite app_nil_r in Hpages.
    cbn [Pos.of_succ_nat Pos.succ] in Hpages.
    rewrite Hpages. reflexivity.
  - apply Hpast; [lia|]. cbn. lia.
Defined.

Lemma like_plain_prefix (s t : list ascii) :
  forallb plain_char s = true ->
  like_chars (s ++ ["%"%char]) t = starts_with s t.
Proof.
  revert t. induction s as [|c s IH]; intros t Hs.
  - cbn [app]. rewrite like_percent_all. now destruct t.
  - cbn [forallb] in Hs. apply andb_true_iff in Hs. destruct Hs as [Hc Hs].
    unfold plain_char in Hc. apply negb_true_iff, orb_false_iff in Hc.
    destruct Hc as [Hpercent Hunderscore].
    cbn [app like_chars starts_with]. rewrite Hpercent.
    destruct t as [|d t]; [reflexivity|].
    rewrite Hunderscore, IH by assumption. reflexivity.
Qed.

Lemma like_plain_contains (s t : list ascii) :
  forallb plain_char s = true ->
  like_chars ("%"%char :: s ++ ["%"%char]) t = contains_chars s t.
Proof.
  intros Hs. induction t as [|d t IH].
  - rewrite like_percent_unfold, like_plain_prefix by assumption.
    reflexivity.
  - rewrite like_percent_unfold, like_plain_prefix, IH by assumption.
    reflexivity.
Qed.

Lemma sql_like_plain (text search : string) :
  plain search = true ->
  sql_like text ("%" ++ search ++ "%") = contains_substring text search.
Proof.
  intros Hs. unfold sql_like, contains_substring.
  change ("%" ++ search ++ "%")%string
    with (String "%" (search ++ "%"))%string.
  cbn [list_ascii_of_string]. rewrite list_ascii_of_string_app.
  now apply like_plain_contains.
Qed.

(** When the search value holds neither [%] nor [_], the search filter of
    [get_products] is a literal substring test that ignores the case of
    ASCII letters: a product passes it exactly when the value occurs in its
    name or in its description, a NULL description never matching. *)
Theorem search_plain_is_substring (search : string) (p : product) :
  plain search = true ->
  products_where (search_for search) p
  = contains_substring (p_name p) search
    || match p_description p with
       | Some d => contains_substring d search
       | None => false
       end.
Proof.
  intros Hs. unfold products_where, search_for.
  cbn [f_category_id f_min_price f_max_price f_search andb].
  rewrite sql_like_plain by assumption.
  destruct (p_description p) as [d|]; cbn [sql_like_opt]; [|reflexivity].
  now rewrite sql_like_plain.
Qed.

(** Searching [galaxy] finds "Samsung Galaxy" and not "iPhone 13". *)
Lemma search_plain_is_substring_witness :
  products_where (search_for "galaxy")
                 (sample_product 2 "Samsung Galaxy" (69999 # 100) (Some 1))
  = true
  /\ products_where (search_for "galaxy")
                    (sample_product 1 "iPhone 13" (79999 # 100) (Some 1))
     = false.
Proof.
  split; rewrite search_plain_is_substring by reflexivity; reflexivity.
Defined.

(** ** update_product *)

Lemma update_product_cases (now : string) (db : database) (pid : Z)
      (u : product_update) :
  update_product pid u (connect Healthy now db)
  = let ended outcome db' entry :=
      (Returned outcome,
       {| engine_state := Healthy; clock := now; durable := db';
          pending := db'; journal := [entry] |}) in
    if negb (product_exists pid db)
    then ended false db (WARNING, ProductNotFound pid)
    else if negb (has_set_clause u)
         then ended false db (WARNING, NothingToUpdate)
         else match update_rows pid u (products db) with
              | Some ps => ended true (set_products db ps)
                                 (INFO, ProductUpdated pid)
              | None => ended false db (ERROR, UpdateFailed)
              end.
Proof.
  unfold update_product, update_products. run_method.
  destruct (product_exists pid db); cbn; [|reflexivity].
  destruct (has_set_clause u); cbn; [|reflexivity].
  now destruct (update_rows pid u (products db)).
Qed.

Lemma set_products_same (db : database) : set_products db (products db) = db.
Proof. now destruct db. Qed.

Lemma updated_product_fields (u : product_update) (p p' : product) :
  updated_product u p = Some p' ->
  p_product_id p' = p_product_id p
  /\ p_created_at p' = p_created_at p
  /\ p_name p' = match u_name u with
                 | Some (Some n) => n
                 | _ => p_name p
                 end
  /\ p_description p' = get_default (u_description u) (p_description p)
  /\ p_price p' = match u_price u with
                  | Some (Some x) => pynum_value x
                  | _ => p_price p
                  end
  /\ p_stock_quantity p' = match u_stock_quantity u with
                           | Some (Some s) => s
                           | _ => p_stock_quantity p
                           end
  /\ p_category_id p' = get_default (u_category_id u) (p_category_id p).
Proof.
  unfold updated_product, get_default.
  destruct (u_name u) as [[n|]|]; try discriminate;
    destruct (u_price u) as [[x|]|]; try discriminate;
    destruct (u_stock_quantity u) as [[s|]|]; try discriminate; cbn;
    match goal with
    | |- (if ?c then _ else _) = _ -> _ => destruct c; [|discriminate]
    end;
    intros E; inversion E; subst; cbn; repeat split; reflexivity.
Qed.

Lemma update_rows_Forall2 (pid : Z) (u : product_update)
      (ps ps' : list product) :
  update_rows pid u ps = Some ps' ->
  Forall2 (fun p p' => if p_product_id p =? pid
                       then updated_product u p = Some p' else p' = p)
          ps ps'.
Proof.
  revert ps'. induction ps as [|p ps IH]; cbn; intros ps' E.
  - inversion E. constructor.
  - destruct (p_product_id p =? pid) eqn:Hid.
    + destruct (updated_product u p) as [p1|] eqn:E1; [|discriminate].
      destruct (update_rows pid u ps) as [rest|]; [|discriminate].
      inversion E; subst. constructor; [now rewrite Hid | now apply IH].
    + destruct (update_rows pid u ps) as [rest|]; [|discriminate].
      inversion E; subst. constructor; [now rewrite Hid | now apply IH].
Qed.

(** [update_product] on a working engine.  For an identifier no product
    has it returns [False] with the warning "not found"; when the update
    holds none of the five whitelisted fields it returns [False] with the
    warning "nothing to update"; a new price below zero makes it return
    [False] with the error logged; in these cases nothing changes.  When it
    returns [True], the committed [products] table has the same rows in the
    same order: a row with another identifier is untouched, and a row with
    this identifier keeps its identifier and creation time, takes the new
    value of every field present in the update and keeps its old value for
    every other field; no other table changes. *)
Theorem update_product_effect (now : string) (db : database) (pid : Z)
        (u : product_update) :
  let r := update_product pid u (connect Healthy now db) in
  ((forall p, In p (products db) -> p_product_id p <> pid) ->
   fst r = Returned false /\ durable (snd r) = db
   /\ journal (snd r) = [(WARNING, ProductNotFound pid)])
  /\ ((exists p, In p (products db) /\ p_product_id p = pid) ->
      has_set_clause u = false ->
      fst r = Returned false /\ durable (snd r) = db
      /\ journal (snd r) = [(WARNING, NothingToUpdate)])
  /\ ((exists p, In p (products db) /\ p_product_id p = pid) ->
      (exists x, u_price u = Some (Some x) /\ (pynum_value x < 0)%Q) ->
      fst r = Returned false /\ durable (snd r) = db
      /\ journal (snd r) = [(ERROR, UpdateFailed)])
  /\ (fst r = Returned true ->
      durable (snd r) = set_products db (products (durable (snd r)))
      /\ Forall2
           (fun p p' =>
              p_product_id p' = p_product_id p
              /\ p_created_at p' = p_created_at p
              /\ (p_product_id p <> pid -> p' = p)
              /\ (p_product_id p = pid ->
                  p_name p' = match u_name u with
                              | Some (Some n) => n
                              | _ => p_name p
                              end
                  /\ p_description p'
                     = get_default (u_description u) (p_description p)
                  /\ p_price p' = match u_price u with
                                  | Some (Some x) => pynum_value x
                                  | _ => p_price p
                                  end
                  /\ p_stock_quantity p'
                     = match u_stock_quantity u with
                       | Some (Some s) => s
                       | _ => p_stock_quantity p
                       end
                  /\ p_category_id p'
                     = get_default (u_category_id u) (p_category_id p)))
           (products db) (products (durable (snd r)))).
Proof.
  intros r. subst r. rewrite update_product_cases. cbv zeta.
  assert (Hexists : (exists p, In p (products db) /\ p_product_id p = pid) ->
                    product_exists pid db = true).
  { intros [p [Hin Hid]]. apply existsb_exists. exists p.
    split; [assumption | now apply Z.eqb_eq]. }
  split; [|split; [|split]].
  - intros Habsent.
    assert (E : product_exists pid db = false).
    { destruct (product_exists pid db) eqn:E; [|reflexivity].
      apply existsb_exists in E. destruct E as [p [Hin Hid]].
      apply Z.eqb_eq in Hid. now apply Habsent in Hin. }
    rewrite E. cbn. auto.
  - intros Hex Hnone. rewrite (Hexists Hex), Hnone. cbn. auto.
  - intros Hex [x [Hx Hneg]]. rewrite (Hexists Hex). cbn [negb].
    assert (Hset : has_set_clause u = true).
    { unfold has_set_clause. rewrite Hx.
      now destruct (u_name u), (u_description u). }
    rewrite Hset. cbn [negb].
    assert (Hrows : update_rows pid u (products db) = None).
    { destruct Hex as [p [Hin Hid]]. clear Hexists.
      induction (products db) as [|q ps IH]; [contradiction|].
      cbn. destruct Hin as [-> | Hin].
      - apply Z.eqb_eq in Hid. rewrite Hid.
        assert (Hup : updated_product u p = None).
        { unfold updated_product. rewrite Hx. cbn.
          destruct (get_default (u_name u) (Some (p_name p))); [|reflexivity].
          destruct (get_default (u_stock_quantity u)
                                (Some (p_stock_quantity p))); [|reflexivity].
          assert (Hq : Qle_bool 0 (pynum_value x) = false).
          { destruct (Qle_bool 0 (pynum_value x)) eqn:E; [|reflexivity].
            apply Qle_bool_iff in E. exfalso.
            apply (Qlt_not_le _ _ Hneg E). }
          now rewrite Hq. }
        now rewrite Hup.
      - rewrite (IH Hin).
        now destruct (if p_product_id q =? pid then updated_product u q
                      else Some q). }
    rewrite Hrows. cbn. auto.
  - destruct (negb (product_exists pid db)); [discriminate|].
    destruct (negb (has_set_clause u)); [discriminate|].
    destruct (update_rows pid u (products db)) as [ps|] eqn:Hrows;
      [|discriminate].
    intros _. cbn [fst snd durable products set_products].
    split; [reflexivity|].
    apply update_rows_Forall2 in Hrows.
    eapply Forall2_impl; [|exact Hrows].
    intros p p'. cbv beta. destruct (p_product_id p =? pid) eqn:Hid.
    + intros Hup. apply updated_product_fields in Hup.
      destruct Hup as (H1 & H2 & Hrest).
      apply Z.eqb_eq in Hid.
      split; [exact H1|]. split; [exact H2|].
      split; [intros Hne; contradiction | intros _; exact Hrest].
    + intros ->. apply Z.eqb_neq in Hid.
      split; [reflexivity|]. split; [reflexivity|].
      split; [reflexivity | intros Heq; contradiction].
Qed.

(** The update of [demonstrate_system] on product 1 of the sample shop, and
    an update of a product that does not exist. *)
Lemma update_product_effect_witness :
  let r := update_product 1 demo_update (connect Healthy timestamp shop) in
  fst r = Returned true
  /\ durable (snd r) = set_products shop (products (durable (snd r)))
  /\ map p_stock_quantity (products (durable (snd r))) = [8; 10; 10; 10; 10]
  /\ fst (update_product 9 demo_update (connect Healthy timestamp shop))
     = Returned false.
Proof.
  intros r.
  destruct (update_product_effect timestamp shop 1 demo_update)
    as (_ & _ & _ & Hdone).
  destruct (update_product_effect timestamp shop 9 demo_update)
    as (Habsent & _).
  assert (Hret : fst r = Returned true) by reflexivity.
  split; [exact Hret|]. split; [apply (Hdone Hret)|]. split; [reflexivity|].
  apply Habsent. intros p Hin. cbn in Hin.
  repeat (destruct Hin as [<- | Hin]; [discriminate|]). contradiction.
Defined.

(** ** bulk_update_prices *)

Lemma bulk_update_prices_cases (now : string) (db : database) (cid : Z)
      (percent : pynum) :
  bulk_update_prices cid percent (connect Healthy now db)
  = let products' :=
      map (fun p => if in_category cid p
                    then set_price p (increased_price (p_price p) percent)
                    else p) (products db) in
    if forallb (fun p => Qle_bool 0 (p_price p))
               (filter (in_category cid) products')
    then (Returned true,
          {| engine_state := Healthy; clock := now;
             durable := set_products db products';
             pending := set_products db products';
             journal :=
               [(INFO, PricesUpdated
                         (Z.of_nat (List.length (filter (in_category cid)
                                                        (products db))))
                         cid)] |})
    else (Returned false,
          {| engine_state := Healthy; clock := now; durable := db;
             pending := db; journal := [(ERROR, PricesUpdateFailed)] |}).
Proof.
  unfold bulk_update_prices, update_prices. run_method.
  match goal with |- context [if ?c then _ else _] => destruct c end;
    reflexivity.
Qed.

Lemma in_category_spec (cid : Z) (p : product) :
  in_category cid p = true <-> p_category_id p = Some cid.
Proof.
  unfold in_category, sql_eq_opt. destruct (p_category_id p) as [x|].
  - rewrite Z.eqb_eq. split; [now intros -> | now intros [=]].
  - split; discriminate.
Qed.

(** [bulk_update_prices] on a working engine returns [True] exactly when
    no product of the category would get a negative price.  The committed
    [products] table then has the same rows in the same order, each product
    of the category with its price replaced by
    [ROUND(price * (1 + percent / 100), 2)] and nothing else changed,
    products of other categories (or of none) untouched.  Otherwise the whole
    update is refused: it returns [False] and no price changes. *)
Theorem bulk_update_prices_effect (now : string) (db : database) (cid : Z)
        (percent : pynum) :
  let r := bulk_update_prices cid percent (connect Healthy now db) in
  (fst r = Returned true <->
   forall p, In p (products db) -> p_category_id p = Some cid ->
             (0 <= increased_price (p_price p) percent)%Q)
  /\ (fst r = Returned true ->
      durable (snd r) = set_products db (products (durable (snd r)))
      /\ Forall2 (repriced cid percent)
                 (products db) (products (durable (snd r))))
  /\ (fst r <> Returned true ->
      fst r = Returned false /\ durable (snd r) = db).
Proof.
  intros r. subst r. rewrite bulk_update_prices_cases. cbv zeta.
  match goal with |- context [if ?c then _ else _] => destruct c eqn:Hcheck end;
    cbn [fst snd durable products set_products].
  - split; [|split].
    + split; [|reflexivity]. intros _ p Hin Hcat.
      rewrite forallb_forall in Hcheck. apply Qle_bool_iff.
      apply in_category_spec in Hcat.
      apply (Hcheck (set_price p (increased_price (p_price p) percent))).
      apply filter_In. split; [|exact Hcat].
      apply in_map_iff. exists p. now rewrite Hcat.
    + intros _. split; [reflexivity|]. clear Hcheck.
      induction (products db) as [|p ps IH]; cbn; [constructor|].
      constructor; [|exact IH].
      unfold repriced. destruct (in_category cid p) eqn:Hcat.
      * apply in_category_spec in Hcat. cbn.
        repeat split; try reflexivity. intros Hne. contradiction.
      * repeat split; try reflexivity. intros Heq.
        apply in_category_spec in Heq. congruence.
    + intros H. contradiction.
  - split; [|split].
    + split; [discriminate|]. intros Hall. exfalso.
      assert (Hok : forallb (fun p => Qle_bool 0 (p_price p))
                (filter (in_category cid)
                   (map (fun p => if in_category cid p
                                  then set_price p (increased_price (p_price p)
                                                                    percent)
                                  else p) (products db))) = true).
      { apply forallb_forall. intros p' Hp'. apply filter_In in Hp'.
        destruct Hp' as [Hp' Hf]. apply in_map_iff in Hp'.
        destruct Hp' as [p [Heq Hin]]. subst p'.
        destruct (in_category cid p) eqn:Hcat; [|congruence].
        cbn. apply Qle_bool_iff.
        apply Hall; [exact Hin | now apply in_category_spec]. }
      congruence.
    + discriminate.
    + intros _. auto.
Qed.

(** Ten per cent on the books of the sample shop, and a cut of 200 per
    cent, which is refused. *)
Lemma bulk_update_prices_effect_witness :
  let r := bulk_update_prices 2 (PyFloat 10) (connect Healthy timestamp shop) in
  let r' :=
    bulk_update_prices 2 (PyFloat (-200)) (connect Healthy timestamp shop) in
  fst r = Returned true
  /\ Forall2 (repriced 2 (PyFloat 10))
             (products shop) (products (durable (snd r)))
  /\ fst r' = Returned false /\ durable (snd r') = shop.
Proof.
  intros r r'.
  destruct (bulk_update_prices_effect timestamp shop 2 (PyFloat 10))
    as (_ & Hdone & _).
  destruct (bulk_update_prices_effect timestamp shop 2 (PyFloat (-200)))
    as (_ & _ & Hrefused).
  assert (Hret : fst r = Returned true) by reflexivity.
  split; [exact Hret|]. split; [apply (Hdone Hret)|].
  apply Hrefused. vm_compute. discriminate.
Defined.

(** An [int] percentage counts only in whole hundreds: the call behaves in
    every respect as the call with the [float] obtained by truncating
    [percent / 100] toward zero and multiplying by 100 again, so any [int]
    strictly between -100 and 100 behaves as 0.0. *)
Theorem bulk_update_prices_int_truncates (s : session) (cid z : Z) :
  bulk_update_prices cid (PyInt z) s
  = bulk_update_prices cid (PyFloat (inject_Z (100 * Z.quot z 100))) s
  /\ (Z.abs z < 100 ->
      bulk_update_prices cid (PyInt z) s
      = bulk_update_prices cid (PyFloat 0) s).
Proof.
  assert (Hprice : forall q price,
             (q == inject_Z (Z.quot z 100) * 100)%Q ->
             increased_price price (PyInt z)
             = increased_price price (PyFloat q)).
  { intros q price Hq. unfold increased_price, sql_div_100.
    apply sql_round2_compat. rewrite Hq. field. }
  assert (Hstmt : forall q db,
             (q == inject_Z (Z.quot z 100) * 100)%Q ->
             update_prices (PyInt z) cid db = update_prices (PyFloat q) cid db).
  { intros q db Hq. unfold update_prices.
    assert (Hmap : map (fun p => if in_category cid p
                                 then set_price p (increased_price (p_price p)
                                                                   (PyInt z))
                                 else p) (products db)
                   = map (fun p => if in_category cid p
                                   then set_price p
                                          (increased_price (p_price p)
                                                           (PyFloat q))
                                   else p) (products db)).
    { apply map_ext. intros p. now rewrite (Hprice q). }
    now rewrite Hmap. }
  assert (Hcall : forall q,
             (q == inject_Z (Z.quot z 100) * 100)%Q ->
             bulk_update_prices cid (PyInt z) s
             = bulk_update_prices cid (PyFloat q) s).
  { intros q Hq. unfold bulk_update_prices, try_except, with_connection,
      bind, execute.
    now rewrite (Hstmt q (pending s) Hq). }
  split.
  - apply Hcall. rewrite inject_Z_mult. ring.
  - intros Hsmall. apply Hcall.
    assert (E : Z.quot z 100 = 0) by (apply Z.quot_small_iff; lia).
    rewrite E. reflexivity.
Qed.

(** An increase by the [int] 50 changes as little as one by 0.0. *)
Lemma bulk_update_prices_int_truncates_witness :
  bulk_update_prices 2 (PyInt 50) (connect Healthy timestamp shop)
  = bulk_update_prices 2 (PyFloat 0) (connect Healthy timestamp shop).
Proof.
  apply (bulk_update_prices_int_truncates (connect Healthy timestamp shop)).
  cbn. lia.
Defined.

(** ** delete_product without a product *)

Lemma filter_all {A : Type} (f : A -> bool) (l : list A) :
  (forall x, In x l -> f x = true) -> filter f l = l.
Proof.
  induction l as [|y l IH]; cbn; intros H; [reflexivity|].
  rewrite (H y (or_introl eq_refl)). f_equal. apply IH. auto.
Qed.

(** [delete_product] does not check that the product exists: on a working
    engine, for an identifier that no product and no order item carries it
    returns [True], logs the deletion and leaves the database exactly as it
    was; for an identifier that no product carries but some order item
    refers to, it refuses like for an existing product. *)
Theorem delete_product_absent (now : string) (db : database) (pid : Z) :
  (forall p, In p (products db) -> p_product_id p <> pid) ->
  let r := delete_product pid (connect Healthy now db) in
  ((forall oi, In oi (order_items db) -> oi_product_id oi <> pid) ->
   fst r = Returned true /\ durable (snd r) = db
   /\ journal (snd r) = [(INFO, ProductDeleted pid)])
  /\ ((exists oi, In oi (order_items db) /\ oi_product_id oi = pid) ->
      fst r = Returned false /\ durable (snd r) = db
      /\ journal (snd r) = [(WARNING, DeleteRefused pid)]).
Proof.
  intros Habsent r. subst r. rewrite delete_product_cases. split.
  - intros Hfree.
    assert (E : (count_order_items pid db >? 0) = false).
    { destruct (count_order_items pid db >? 0) eqn:E; [|reflexivity].
      apply Z.gtb_lt, count_order_items_pos in E.
      destruct E as [oi [Hin Hid]]. now apply Hfree in Hin. }
    rewrite E. cbv zeta. cbn [fst snd durable journal].
    split; [reflexivity|]. split; [|reflexivity].
    rewrite filter_all; [apply set_products_same|].
    intros p Hp. apply negb_true_iff, Z.eqb_neq. now apply Habsent.
  - intros Hrefs. apply count_order_items_pos, Z.gtb_lt in Hrefs.
    rewrite Hrefs. cbn. auto.
Qed.

(** Product 99 does not exist in the sample shop. *)
Lemma delete_product_absent_witness :
  fst (delete_product 99 (connect Healthy timestamp shop)) = Returned true
  /\ durable (snd (delete_product 99 (connect Healthy timestamp shop))) = shop.
Proof.
  assert (Habsent : forall p, In p (products shop) -> p_product_id p <> 99).
  { intros p Hin. cbn in Hin.
    repeat (destruct Hin as [<- | Hin]; [discriminate|]). contradiction. }
  destruct (delete_product_absent timestamp shop 99 Habsent) as [Hfree _].
  destruct Hfree as (Hret & Hdb & _).
  - intros oi Hin. cbn in Hin.
    repeat (destruct Hin as [<- | Hin]; [discriminate|]). contradiction.
  - split; assumption.
Defined.

(** ** Rounding of prices *)

Lemma cents_value (n : Z) : (n # 100 == inject_Z n * (1 # 100))%Q.
Proof. unfold Qeq. cbn. lia. Qed.

Lemma Qfloor_bounds (x : Q) :
  (inject_Z (Qfloor x) <= x)%Q /\ (x < inject_Z (Qfloor x) + 1)%Q.
Proof.
  split; [apply Qfloor_le|].
  pose proof (Qlt_floor x) as H. now rewrite inject_Z_plus in H.
Qed.

Lemma Qfloor_half (k : Z) : Qfloor (inject_Z k + (1 # 2)) = k.
Proof.
  destruct (Qfloor_bounds (inject_Z k + (1 # 2))) as [Hlo Hhi].
  set (m := Qfloor (inject_Z k + (1 # 2))) in *.
  assert (H1 : (inject_Z m < inject_Z (k + 1))%Q)
    by (rewrite inject_Z_plus; change (inject_Z 1) with 1%Q; lra).
  assert (H2 : (inject_Z k < inject_Z (m + 1))%Q)
    by (rewrite inject_Z_plus; change (inject_Z 1) with 1%Q; lra).
  rewrite <- Zlt_Qlt in H1, H2. lia.
Qed.

(** The integer number of cents [ROUND(x, 2)] settles on. *)
Lemma sql_round2_cents (x : Q) :
  exists n : Z,
    sql_round2 x = Qred (n # 100)
    /\ (x * 100 - (1 # 2) <= inject_Z n)%Q
    /\ (inject_Z n <= x * 100 + (1 # 2))%Q.
Proof.
  unfold sql_round2. destruct (Qle_bool 0 x).
  - exists (Qfloor (x * 100 + (1 # 2))). split; [reflexivity|].
    destruct (Qfloor_bounds (x * 100 + (1 # 2))). split; lra.
  - exists (- Qfloor (- (x * 100) + (1 # 2))). split; [reflexivity|].
    destruct (Qfloor_bounds (- (x * 100) + (1 # 2))).
    rewrite inject_Z_opp. split; lra.
Qed.

Lemma sql_round2_of_cents (n : Z) : sql_round2 (Qred (n # 100)) = Qred (n # 100).
Proof.
  rewrite (sql_round2_compat (Qred (n # 100)) (inject_Z n * (1 # 100)))
    by (rewrite Qred_correct; apply cents_value).
  unfold sql_round2.
  assert (Hup : Qfloor (inject_Z n * (1 # 100) * 100 + (1 # 2)) = n).
  { transitivity (Qfloor (inject_Z n + (1 # 2)));
      [apply Qfloor_comp; ring | apply Qfloor_half]. }
  assert (Hdown : Qfloor (- (inject_Z n * (1 # 100) * 100) + (1 # 2)) = - n).
  { transitivity (Qfloor (inject_Z (- n) + (1 # 2)));
      [apply Qfloor_comp; rewrite inject_Z_opp; ring | apply Qfloor_half]. }
  rewrite Hup, Hdown, Z.opp_involutive.
  now destruct (Qle_bool 0 (inject_Z n * (1 # 100))).
Qed.

(** The new price [bulk_update_prices] computes from a [float] percentage
    is a whole number of cents, lies within half a cent of
    [price * (1 + percent / 100)], and is a fixed point of the rounding; a
    percentage that is not negative never lowers a price that is not
    negative and is itself a whole number of cents. *)
Theorem increased_price_rounding (price percent : Q) :
  let new_price := increased_price price (PyFloat percent) in
  let exact := (price * (1 + percent * (1 # 100)))%Q in
  (exists n : Z, new_price == inject_Z n * (1 # 100))%Q
  /\ (exact - (1 # 200) <= new_price)%Q
  /\ (new_price <= exact + (1 # 200))%Q
  /\ sql_round2 new_price = new_price
  /\ (forall c : Z, (price == inject_Z c * (1 # 100))%Q ->
                    (0 <= price)%Q -> (0 <= percent)%Q ->
                    (price <= new_price)%Q).
Proof.
  intros new_price exact.
  assert (Hexact : (price * (1 + sql_div_100 (PyFloat percent)) == exact)%Q).
  { unfold exact, sql_div_100. field. }
  destruct (sql_round2_cents (price * (1 + sql_div_100 (PyFloat percent))))
    as (n & Hn & Hlo & Hhi).
  fold (increased_price price (PyFloat percent)) in Hn. fold new_price in Hn.
  rewrite Hexact in Hlo, Hhi.
  assert (Hvalue : (new_price == inject_Z n * (1 # 100))%Q).
  { rewrite Hn, Qred_correct. apply cents_value. }
  split; [now exists n|].
  split; [rewrite Hvalue; lra|].
  split; [rewrite Hvalue; lra|].
  split; [rewrite Hn; apply sql_round2_of_cents|].
  intros c Hc Hprice Hpercent. rewrite Hvalue.
  assert (Hgrow : (price <= exact)%Q).
  { unfold exact.
    assert (0 <= price * percent)%Q by now apply Qmult_le_0_compat.
    lra. }
  assert (Hcn : c <= n).
  { assert (H1 : (inject_Z c < inject_Z (n + 1))%Q)
      by (rewrite inject_Z_plus; change (inject_Z 1) with 1%Q; lra).
    rewrite <- Zlt_Qlt in H1. lia. }
  rewrite Zle_Qle in Hcn. lra.
Qed.

(** Ten per cent on 25.50 gives 28.05. *)
Lemma increased_price_rounding_witness :
  (51 # 2 <= increased_price (51 # 2) (PyFloat 10))%Q
  /\ increased_price (51 # 2) (PyFloat 10) = (561 # 20)%Q.
Proof.
  destruct (increased_price_rounding (51 # 2) 10) as (_ & _ & _ & _ & Hgrow).
  split; [|reflexivity].
  apply (Hgrow 2550); [reflexivity | discriminate | discriminate].
Defined.

(** ** batch_create_products on valid entries *)







(** ** get_customer_orders and get_popular_products *)

Lemma group_by_keys {A K : Type} (eqb : K -> K -> bool) (key : A -> K)
      (rows : list A) :
  map fst (group_by eqb key rows) = distinct eqb (map key rows).
Proof. unfold group_by. rewrite map_map. cbn. apply map_id. Qed.

(** Rows built from groups with distinct keys have distinct identifiers
    when each row takes its identifier from the key of its group. *)
Lemma aggregated_NoDup {G R : Type} (agg : G -> option R) (key : G -> Z)
      (id : R -> Z) (gs : list G) :
  (forall g r, In g gs -> agg g = Some r -> id r = key g) ->
  NoDup (map key gs) -> NoDup (map id (non_null (map agg gs))).
Proof.
  induction gs as [|g gs IH]; cbn; intros Hid Hnd; [constructor|].
  inversion Hnd as [|? ? Hnotin Hnd']; subst.
  assert (Hrest : NoDup (map id (non_null (map agg gs)))).
  { apply IH; [|assumption]. intros g' r Hg'. apply Hid. now right. }
  destruct (agg g) as [r|] eqn:Hagg; [|exact Hrest].
  cbn. constructor; [|exact Hrest].
  intros Hin. apply in_map_iff in Hin. destruct Hin as [r' [Heq Hr']].
  apply non_null_In, in_map_iff in Hr'. destruct Hr' as [g' [Hagg' Hg']].
  apply Hnotin. apply in_map_iff. exists g'. split; [|exact Hg'].
  rewrite <- (Hid g' r' (or_intror Hg') Hagg'), Heq.
  apply (Hid g r (or_introl eq_refl) Hagg).
Qed.

(** Every row of [get_customer_orders] describes an order of that customer
    (its identifier, date, status and amount) together with the number of
    that order's items; no order appears twice, and the rows stand in
    descending order of date. *)
Theorem customer_orders_rows (db : database) (customer_id : Z) :
  let rows := select_customer_orders customer_id db in
  (forall r, In r rows ->
     exists o, In o (orders db)
               /\ o_customer_id o = customer_id
               /\ co_order_id r = o_order_id o
               /\ co_order_date r = o_order_date o
               /\ co_status r = o_status o
               /\ co_total_amount r = o_total_amount o
               /\ co_item_count r
                  = Z.of_nat (List.length
                                (filter (fun oi => oi_order_id oi
                                                   =? o_order_id o)
                                        (order_items db))))
  /\ NoDup (map co_order_id rows)
  /\ Sorted (fun a b => String.leb (co_order_date b) (co_order_date a) = true)
            rows.
Proof.
  intros rows. subst rows. unfold select_customer_orders.
  set (kept := filter (fun j => o_customer_id (hj_order j) =? customer_id)
                      (history_join db)).
  set (groups := group_by Z.eqb (fun j => o_order_id (hj_order j)) kept).
  assert (Hgroup : forall g r,
             In g groups -> history_aggregate db g = Some r ->
             co_order_id r = fst g
             /\ exists j, In j kept /\ r = {|
                  co_order_id := o_order_id (hj_order j);
                  co_order_date := o_order_date (hj_order j);
                  co_status := o_status (hj_order j);
                  co_total_amount := o_total_amount (hj_order j);
                  co_item_count :=
                    Z.of_nat (List.length
                                (filter (fun oi => oi_order_id oi
                                                   =? o_order_id (hj_order j))
                                        (order_items db)));
                  co_product_names :=
                    group_concat
                      (map p_name (non_null (map hj_product (snd g)))) |}).
  { intros g r Hg Hagg.
    apply (group_by_In Z.eqb _ Z.eqb_eq) in Hg. destruct Hg as [Hrows _].
    unfold history_aggregate in Hagg.
    destruct (snd g) as [|j rest] eqn:Hsnd; [discriminate|].
    assert (Hj : In j (filter (fun r0 => o_order_id (hj_order r0) =? fst g)
                              kept)) by (rewrite <- Hrows; now left).
    apply filter_In in Hj. destruct Hj as [Hj Hkey]. apply Z.eqb_eq in Hkey.
    inversion Hagg; subst r; clear Hagg. cbn [co_order_id].
    split; [exact Hkey|]. exists j. split; [exact Hj | reflexivity]. }
  split; [|split].
  - intros r Hr. apply order_by_In, non_null_In, in_map_iff in Hr.
    destruct Hr as [g [Hagg Hg]].
    destruct (Hgroup g r Hg Hagg) as [_ [j [Hj ->]]].
    apply filter_In in Hj. destruct Hj as [Hjoin Hcustomer].
    apply history_join_In in Hjoin. destruct Hjoin as [Ho _].
    apply Z.eqb_eq in Hcustomer.
    exists (hj_order j). cbn. repeat split; assumption.
  - eapply Permutation_NoDup.
    + apply Permutation_map. symmetry. apply order_by_perm.
    + apply (aggregated_NoDup (history_aggregate db) fst co_order_id).
      * intros g r Hg Hagg. now destruct (Hgroup g r Hg Hagg).
      * unfold groups. rewrite group_by_keys.
        apply (distinct_NoDup Z.eqb Z.eqb_eq).
  - apply (order_by_sorted
             (fun a b => String.leb (co_order_date b) (co_order_date a))).
    intros a b. apply leb_desc_total.
Qed.

(** The orders of customer 7 of the sample shop. *)
Lemma customer_orders_rows_witness :
  let rows := select_customer_orders 7 shop in
  rows <> []
  /\ (forall r, In r rows ->
                exists o, In o (orders shop) /\ o_customer_id o = 7
                          /\ co_order_id r = o_order_id o)
  /\ NoDup (map co_order_id rows).
Proof.
  intros rows.
  destruct (customer_orders_rows shop 7) as (Hrows & Hnodup & _).
  split; [discriminate|]. split; [|exact Hnodup].
  intros r Hr. destruct (Hrows r Hr) as (o & Ho & Hcustomer & Hid & _).
  exists o. repeat split; assumption.
Defined.

Lemma sql_compare_Z_antisym (a b : option Z) :
  sql_compare_Z b a = CompOpp (sql_compare_Z a b).
Proof. destruct a, b; cbn; try reflexivity. apply Z.compare_antisym. Qed.

Lemma sql_compare_Q_antisym (a b : option Q) :
  sql_compare_Q b a = CompOpp (sql_compare_Q a b).
Proof.
  destruct a, b; cbn; try reflexivity. symmetry. apply Qcompare_antisym.
Qed.

Lemma by_popularity_desc_total (a b : popular_row) :
  by_popularity_desc a b = false -> by_popularity_desc b a = true.
Proof.
  unfold by_popularity_desc.
  rewrite (sql_compare_Z_antisym (pp_total_sold a) (pp_total_sold b)).
  rewrite (sql_compare_Q_antisym (pp_total_revenue a) (pp_total_revenue b)).
  destruct (sql_compare_Z (pp_total_sold a) (pp_total_sold b));
    destruct (sql_compare_Q (pp_total_revenue a) (pp_total_revenue b));
    cbn; congruence.
Qed.

Lemma by_popularity_desc_spec (a b : popular_row) :
  by_popularity_desc a b = true -> more_popular a b.
Proof.
  unfold by_popularity_desc, more_popular.
  destruct (sql_compare_Z (pp_total_sold a) (pp_total_sold b));
    destruct (sql_compare_Q (pp_total_revenue a) (pp_total_revenue b));
    intros H; try discriminate; auto; right; split; congruence.
Qed.

(** The rows of [get_popular_products]: each carries the identifier, name
    and price of a product of the table, no product identifier appears
    twice, the rows stand by units sold and then revenue, both descending
    with NULL last, and a non-negative limit bounds their number and keeps
    the first rows of the unlimited result. *)
Theorem popular_products_rows (db : database) (limit : Z) :
  let rows := select_popular_products limit db in
  (forall r, In r rows ->
     exists p, In p (products db)
               /\ pp_product_id r = p_product_id p
               /\ pp_name r = p_name p
               /\ pp_price r = p_price p)
  /\ NoDup (map pp_product_id rows)
  /\ Sorted more_popular rows
  /\ (0 <= limit ->
      Z.of_nat (List.length rows) <= limit
      /\ rows = firstn (Z.to_nat limit) (select_popular_products (-1) db)).
Proof.
  intros rows. subst rows. unfold select_popular_products.
  set (groups := group_by Z.eqb (fun j => p_product_id (pj_product j))
                          (popular_join db)).
  assert (Hgroup : forall g r,
             In g groups -> popular_aggregate g = Some r ->
             pp_product_id r = fst g
             /\ exists j, In j (popular_join db)
                          /\ pp_product_id r = p_product_id (pj_product j)
                          /\ pp_name r = p_name (pj_product j)
                          /\ pp_price r = p_price (pj_product j)).
  { intros g r Hg Hagg.
    apply (group_by_In Z.eqb _ Z.eqb_eq) in Hg. destruct Hg as [Hrows _].
    unfold popular_aggregate in Hagg.
    destruct (snd g) as [|j rest] eqn:Hsnd; [discriminate|].
    assert (Hj : In j (filter (fun r0 => p_product_id (pj_product r0)
                                         =? fst g) (popular_join db)))
      by (rewrite <- Hrows; now left).
    apply filter_In in Hj. destruct Hj as [Hj Hkey]. apply Z.eqb_eq in Hkey.
    inversion Hagg; subst r; clear Hagg. cbn.
    split; [exact Hkey|]. exists j. repeat split. exact Hj. }
  assert (Hsorted : Sorted more_popular
                           (order_by by_popularity_desc (product_sales db))).
  { apply (Sorted_impl (fun a b => by_popularity_desc a b = true)).
    - apply by_popularity_desc_spec.
    - apply order_by_sorted. apply by_popularity_desc_total. }
  assert (Hnodup : NoDup (map pp_product_id
                              (order_by by_popularity_desc
                                        (product_sales db)))).
  { eapply Permutation_NoDup.
    - apply Permutation_map. symmetry. apply order_by_perm.
    - apply (aggregated_NoDup popular_aggregate fst pp_product_id).
      + intros g r Hg Hagg. now destruct (Hgroup g r Hg Hagg).
      + fold groups. unfold groups. rewrite group_by_keys.
        apply (distinct_NoDup Z.eqb Z.eqb_eq). }
  split; [|split; [|split]].
  - intros r Hr. apply limit_offset_In, order_by_In, non_null_In in Hr.
    apply in_map_iff in Hr. destruct Hr as [g [Hagg Hg]].
    destruct (Hgroup g r Hg Hagg) as [_ [j [Hj Hfields]]].
    exists (pj_product j). split; [|exact Hfields].
    now apply popular_join_In.
  - unfold limit_offset. cbn [Z.to_nat skipn].
    destruct (limit <? 0); [exact Hnodup|].
    rewrite <- (firstn_skipn (Z.to_nat limit)
                             (order_by by_popularity_desc (product_sales db)))
      in Hnodup.
    rewrite map_app in Hnodup. now apply NoDup_app_remove_r in Hnodup.
  - now apply Sorted_limit_offset.
  - intros Hlimit. split; [now apply limit_offset_length|].
    unfold limit_offset. cbn [Z.to_nat skipn].
    assert (E : (limit <? 0) = false) by now apply Z.ltb_ge.
    rewrite E. reflexivity.
Qed.

(** The top three products of the sample shop. *)
Lemma popular_products_rows_witness :
  let rows := select_popular_products 3 shop in
  rows <> []
  /\ (forall r, In r rows -> exists p, In p (products shop)
                                       /\ pp_name r = p_name p)
  /\ Z.of_nat (List.length rows) <= 3.
Proof.
  intros rows.
  destruct (popular_products_rows shop 3) as (Hrows & _ & _ & Hlimit).
  split; [discriminate|]. split.
  - intros r Hr. destruct (Hrows r Hr) as (p & Hp & _ & Hname & _).
    exists p. split; assumption.
  - apply Hlimit. lia.
Defined.

(** ** The popular-products join, product by product *)

Lemma find_hd_filter {A : Type} (f : A -> bool) (l : list A) :
  find f l = hd_error (filter f l).
Proof.
  induction l as [|x l IH]; cbn; [reflexivity|].
  destruct (f x); [reflexivity | exact IH].
Qed.

Lemma non_null_map_Some {A : Type} (l : list A) : non_null (map Some l) = l.
Proof. induction l as [|x l IH]; cbn; [reflexivity | now rewrite IH]. Qed.

Lemma filter_length_le {A : Type} (f g : A -> bool) (l : list A) :
  (forall x, f x = true -> g x = true) ->
  (List.length (filter f l) <= List.length (filter g l))%nat.
Proof.
  intros Hfg. induction l as [|x l IH]; cbn; [lia|].
  destruct (f x) eqn:Hf.
  - rewrite (Hfg x Hf). cbn. lia.
  - destruct (g x); cbn; lia.
Qed.

Lemma unique_key_matches {A : Type} (id : A -> Z) (k : Z) (l : list A) :
  NoDup (map id l) ->
  (List.length (filter (fun x => (k =? id x)%Z) l) <= 1)%nat.
Proof.
  intros Hnd. rewrite (filter_unique_key id k l Hnd).
  destruct (find (fun x => k =? id x) l); cbn; lia.
Qed.

Section LeftJoins.
Context {A B : Type} (on : A -> B -> bool).

Lemma left_join_app (l1 l2 : list A) (r : list B) :
  left_join on (l1 ++ l2) r = left_join on l1 r ++ left_join on l2 r.
Proof. unfold left_join. apply flat_map_app. Qed.

Lemma left_join_one (a : A) (r : list B) :
  left_join on [a] r
  = match filter (on a) r with
    | [] => [(a, None)]
    | b :: m => map (fun b => (a, Some b)) (b :: m)
    end.
Proof.
  unfold left_join. cbn [flat_map]. rewrite app_nil_r.
  destruct (filter (on a) r); reflexivity.
Qed.

Lemma left_join_head (a : A) (l : list A) (r : list B) :
  exists rest, left_join on (a :: l) r = (a, find (on a) r) :: rest.
Proof.
  unfold left_join. cbn [flat_map]. rewrite find_hd_filter.
  destruct (filter (on a) r) as [|b m]; cbn; eauto.
Qed.

(** A left join whose condition matches at most one row on the right keeps
    the rows on the left as they are. *)
Lemma left_join_fst (l : list A) (r : list B) :
  (forall a, In a l -> (List.length (filter (on a) r) <= 1)%nat) ->
  map fst (left_join on l r) = l.
Proof.
  unfold left_join. induction l as [|a l IH]; intros H; [reflexivity|].
  cbn [flat_map]. rewrite map_app, IH by (intros a' Ha'; apply H; now right).
  specialize (H a (or_introl eq_refl)).
  destruct (filter (on a) r) as [|b [|b' m]]; cbn in *;
    try reflexivity; lia.
Qed.

Lemma left_join_one_matches (a : A) (r : list B) :
  non_null (map snd (left_join on [a] r)) = filter (on a) r.
Proof.
  rewrite left_join_one. destruct (filter (on a) r) as [|b m]; [reflexivity|].
  rewrite map_map. cbn [snd]. apply non_null_map_Some.
Qed.
End LeftJoins.

Lemma distinct_block (k : Z) (n : nat) (ks : list Z) :
  ~ In k ks -> distinct Z.eqb (repeat k (S n) ++ ks) = k :: distinct Z.eqb ks.
Proof.
  intros Hk.
  assert (Hrest : filter (fun k' => negb (k' =? k)) (distinct Z.eqb ks)
                  = distinct Z.eqb ks).
  { apply filter_all. intros x Hx.
    apply -> (distinct_In Z.eqb Z.eqb_eq) in Hx.
    apply Bool.negb_true_iff, Z.eqb_neq. intros Heq. apply Hk.
    now rewrite <- Heq. }
  induction n as [|n IH].
  - cbn. now rewrite Hrest.
  - change (repeat k (S (S n)) ++ ks) with (k :: (repeat k (S n) ++ ks)).
    cbn [distinct]. rewrite IH. cbn [filter].
    rewrite Z.eqb_refl. cbn [negb]. now rewrite Hrest.
Qed.

Lemma map_constant {A : Type} (key : A -> Z) (k : Z) (l : list A) :
  (forall r, In r l -> key r = k) -> map key l = repeat k (List.length l).
Proof.
  induction l as [|x l IH]; cbn; intros H; [reflexivity|].
  rewrite (H x (or_introl eq_refl)), IH by auto. reflexivity.
Qed.

(** Grouping rows that begin with all the rows of one key. *)
Lemma group_by_block {A : Type} (key : A -> Z) (k : Z) (block rest : list A) :
  block <> [] ->
  (forall r, In r block -> key r = k) ->
  (forall r, In r rest -> key r <> k) ->
  group_by Z.eqb key (block ++ rest) = (k, block) :: group_by Z.eqb key rest.
Proof.
  intros Hne Hblock Hrest. unfold group_by.
  rewrite map_app, (map_constant key k block Hblock).
  destruct block as [|b block']; [congruence|].
  cbn [List.length]. rewrite distinct_block.
  - cbn [map]. f_equal.
    + f_equal. rewrite filter_app.
      rewrite filter_all
        by (intros x Hx; rewrite (Hblock x Hx); apply Z.eqb_refl).
      rewrite filter_none
        by (intros x Hx; apply Z.eqb_neq; now apply Hrest).
      apply app_nil_r.
    + apply map_ext_in. intros k' Hk'.
      apply -> (distinct_In Z.eqb Z.eqb_eq) in Hk'.
      apply in_map_iff in Hk'. destruct Hk' as [r [<- Hr]].
      f_equal. rewrite filter_app.
      rewrite filter_none; [reflexivity|].
      intros x Hx. apply Z.eqb_neq. rewrite (Hblock x Hx).
      intros Heq. now apply (Hrest r Hr).
  - intros Hin. apply in_map_iff in Hin. destruct Hin as [r [Heq Hr]].
    now apply (Hrest r Hr).
Qed.

Section PopularProducts.
Variable db : database.
Hypothesis keys : primary_keys_unique db.

Lemma popular_rows_cons (p : product) (ps : list product) :
  popular_rows db (p :: ps) = popular_rows db [p] ++ popular_rows db ps.
Proof.
  unfold popular_rows. change (p :: ps) with ([p] ++ ps).
  now rewrite !left_join_app.
Qed.

Lemma popular_rows_In (j : popular_joined) (ps : list product) :
  In j (popular_rows db ps) -> In (pj_product j) ps.
Proof.
  destruct j as [[[p ooi] oo] oc]. unfold popular_rows. intros H.
  apply left_join_In in H. destruct H as [H _].
  apply left_join_In in H. destruct H as [H _].
  apply left_join_In in H. now destruct H as [H _].
Qed.

Lemma popular_rows_items (ps : list product) :
  map (fun j => fst (fst j)) (popular_rows db ps)
  = left_join (fun p oi => p_product_id p =? oi_product_id oi)
              ps (order_items db).
Proof.
  unfold popular_rows. rewrite <- map_map with (f := fst) (g := fst).
  rewrite left_join_fst.
  - apply left_join_fst. intros [p [oi|]] _; cbn [snd].
    + etransitivity;
        [|apply (unique_key_matches o_order_id (oi_order_id oi) (orders db)),
           keys].
      apply filter_length_le. intros o Ho.
      now apply Bool.andb_true_iff in Ho.
    + rewrite filter_none by reflexivity. cbn. lia.
  - intros x _.
    rewrite (filter_nullable_key c_category_id _ (categories db))
      by apply keys.
    destruct (p_category_id (fst (fst x))) as [v|]; [|cbn; lia].
    destruct (find (fun c => v =? c_category_id c) (categories db));
      cbn; lia.
Qed.

(** The rows of the join for one product: the first shows the product and
    its category, all show the product, and together they list the order
    items that refer to the product. *)
Lemma popular_rows_one (p : product) :
  (exists j rest, popular_rows db [p] = j :: rest
                  /\ pj_product j = p
                  /\ pj_category j = category_of db p)
  /\ (forall j, In j (popular_rows db [p]) -> pj_product j = p)
  /\ non_null (map pj_item (popular_rows db [p])) = items_of db p.
Proof.
  split; [|split].
  - unfold popular_rows.
    destruct (left_join_head
                (fun p oi => p_product_id p =? oi_product_id oi)
                p [] (order_items db)) as [rest1 ->].
    match goal with
    | |- context [left_join ?on2 ((p, ?ooi) :: rest1) (orders db)] =>
        destruct (left_join_head on2 (p, ooi) rest1 (orders db))
          as [rest2 ->]
    end.
    match goal with
    | |- context [left_join ?on3 (?x :: rest2) (categories db)] =>
        destruct (left_join_head on3 x rest2 (categories db)) as [rest3 ->]
    end.
    eexists. eexists. split; [reflexivity|]. split; reflexivity.
  - intros j Hj. apply popular_rows_In in Hj.
    destruct Hj as [Hj | []]. now symmetry.
  - unfold pj_item.
    rewrite <- (map_map (fun j : popular_joined => fst (fst j)) snd).
    rewrite popular_rows_items. apply left_join_one_matches.
Qed.

Lemma product_sales_rows (ps : list product) :
  NoDup (map p_product_id ps) ->
  non_null (map popular_aggregate
                (group_by Z.eqb (fun j => p_product_id (pj_product j))
                          (popular_rows db ps)))
  = map (popular_row_of db) ps.
Proof.
  induction ps as [|p ps IH]; intros Hnd; [reflexivity|].
  inversion Hnd as [|? ? Hnotin Hnd']; subst.
  destruct (popular_rows_one p)
    as ((j & rest & Hblock & Hproduct & Hcategory) & Hall & Hitems).
  rewrite popular_rows_cons.
  rewrite (group_by_block _ (p_product_id p)).
  - cbn [map]. unfold popular_aggregate at 1. cbn [snd]. cbv zeta.
    rewrite Hitems, Hblock, Hproduct, Hcategory.
    cbn [non_null]. rewrite IH by assumption. reflexivity.
  - rewrite Hblock. discriminate.
  - intros r Hr. now rewrite (Hall r Hr).
  - intros r Hr Heq. apply Hnotin. rewrite <- Heq.
    apply in_map. now apply popular_rows_In.
Qed.
End PopularProducts.

(** With unique primary keys, [get_popular_products] selects one row per
    product, in the order of the products table before sorting: the
    product's identifier, name and price, the name of its category, and the
    quantity and subtotal summed over every order item that refers to the
    product, NULL when there is none.  The orders table has no influence:
    what the join to it finds is not used. *)
Theorem popular_products_per_product (db : database) (limit : Z) :
  primary_keys_unique db ->
  select_popular_products limit db
  = limit_offset limit 0
      (order_by by_popularity_desc
                (map (popular_row_of db) (products db))).
Proof.
  intros keys. unfold select_popular_products, product_sales.
  change (popular_join db) with (popular_rows db (products db)).
  rewrite (product_sales_rows db keys) by apply keys. reflexivity.
Qed.

(** The sample shop: product 4 was sold five times in a cancelled order and
    once in a shipped one, and its row counts six. *)
Lemma popular_products_per_product_witness :
  primary_keys_unique shop
  /\ In (popular_row_of shop
           (sample_product 4 "Crime and Punishment" 20 (Some 2)))
        (select_popular_products 5 shop)
  /\ pp_total_sold (popular_row_of shop
                      (sample_product 4 "Crime and Punishment" 20 (Some 2)))
     = Some 6.
Proof.
  split; [exact shop_keys|]. split; [|reflexivity].
  rewrite (popular_products_per_product shop 5 shop_keys).
  vm_compute. tauto.
Defined.
